(** * Jewel: the micro-account signal engine, position controller and
      session loops

    Shallow embedding of the decision logic of

    - [src/src/strategies/micro_strategy.py]   (class [MicroStrategy])
    - [src/src/strategies/talib_polyfill.py]   (function [SMA])
    - [src/src/trading_game.py]                (class [TradingGame])
    - [src/src/trading/base_trading_game.py],
      [src/src/trading/fake_money_game.py]     (class [FakeMoneyGame])
    - [src/live_trading/live_trader.py]        (class [LiveTrader])

    Conventions.  A Python float is embedded as a rational of type [Q];
    a missing cell (NaN) of a pandas column is [None], and every
    comparison that touches it is [false], as in pandas.  The products
    that [populate_signals] compares a cell with, and the percentage that
    [_check_risk_limits] compares with the drawdown limit, are rounded as
    IEEE doubles round them ([Float.round]): there one bit decides on
    which side of a threshold a value falls.  The arithmetic of the
    account (cash, holdings, fees) is exact.  A method that mutates
    [self] becomes a function from the old object to the new one; the
    info and warning lines it logs are returned next to the new object,
    so that "which order ran" can be read off a run. *)

From Stdlib Require Import ZArith QArith Qabs Lqa Lia PeanoNat List Bool Sorted.
From Stdlib Require String.
Import ListNotations.
Local Open Scope Q_scope.

(** ** Comparisons on rationals, as booleans *)

Definition Qltb (x y : Q) : bool := negb (Qle_bool y x).

(** Python's [min(a, b)]: the first argument unless the second is smaller. *)
Definition py_min (a b : Q) : Q := if Qltb b a then b else a.

(** Python's [max(a, b)]: the first argument unless the second is larger. *)
Definition py_max (a b : Q) : Q := if Qltb a b then b else a.

(** ** Double-precision rounding *)

Module Float.

(** [num / den] rounded to the nearest integer, ties to the even one. *)
Definition half_even (num den : Z) : Z :=
  let q := (num / den)%Z in
  let r := (num mod den)%Z in
  match (2 * r ?= den)%Z with
  | Lt => q
  | Gt => (q + 1)%Z
  | Eq => if Z.even q then q else (q + 1)%Z
  end.

(** The binary exponent of [n / d]: the [e] with
    [2 ^ e <= n / d < 2 ^ (e + 1)]. *)
Definition exponent (n d : positive) : Z :=
  let e := (Z.log2 (Zpos n) - Z.log2 (Zpos d))%Z in
  if (Zpos n * 2 ^ Z.max 0 (- e) <? Zpos d * 2 ^ Z.max 0 e)%Z
  then (e - 1)%Z else e.

(** [n / d] rounded to 53 significant bits. *)
Definition round_pos (n d : positive) : Q :=
  let k := (52 - exponent n d)%Z in
  let m :=
    half_even (Zpos n * 2 ^ Z.max 0 k) (Zpos d * 2 ^ Z.max 0 (- k)) in
  inject_Z (m * 2 ^ Z.max 0 (- k)) / inject_Z (2 ^ Z.max 0 k).

(** The double nearest to [x], as IEEE 754 rounds to nearest, ties to
    even.  The exponent is not bounded: overflow to infinity and the
    subnormal numbers (magnitudes above 1.7e308 or below 2.3e-308) are
    outside the model. *)
Definition round (x : Q) : Q :=
  match Qred x with
  | Qmake (Zpos n) d => round_pos n d
  | Qmake (Zneg n) d => - round_pos n d
  | Qmake Z0 _ => 0
  end.

(** [x * y], [x / y] and [x - y] on doubles. *)
Definition mul (x y : Q) : Q := round (x * y).
Definition div (x y : Q) : Q := round (x / y).
Definition sub (x y : Q) : Q := round (x - y).

End Float.

(** ** Cells that may be missing *)

Definition fnum : Type := option Q.

Definition NaN : fnum := None.

Definition is_defined (x : fnum) : Prop := exists v, x = Some v.

(** A column times a literal of the source: the literal is the double
    nearest to its decimal, the product is rounded. *)
Definition fmul (x : fnum) (c : Q) : fnum :=
  match x with
  | Some v => Some (Float.mul v (Float.round c))
  | None => None
  end.

Definition flt (x y : fnum) : bool :=
  match x, y with Some a, Some b => Qltb a b | _, _ => false end.

Definition fgt (x y : fnum) : bool := flt y x.

(** ** pandas fills and the polyfill's moving average *)

Module Pandas.

(** [Series.ffill()]: a missing cell takes the last defined cell before
    it; cells before the first defined one stay missing. *)
Fixpoint ffill_from (prev : fnum) (col : list fnum) : list fnum :=
  match col with
  | [] => []
  | x :: rest =>
      let v := match x with Some _ => x | None => prev end in
      v :: ffill_from v rest
  end.

Definition ffill (col : list fnum) : list fnum := ffill_from None col.

(** [Series.bfill()]: a missing cell takes the next defined cell after
    it; cells after the last defined one stay missing. *)
Fixpoint bfill (col : list fnum) : list fnum :=
  match col with
  | [] => []
  | x :: rest =>
      let rest' := bfill rest in
      match x with
      | Some _ => x :: rest'
      | None => hd None rest' :: rest'
      end
  end.

Fixpoint sum (xs : list Q) : Q :=
  match xs with
  | [] => 0
  | x :: rest => x + sum rest
  end.

(** [Series.rolling(window=w).mean()]: row [i] is missing while fewer
    than [w] rows are available, and the mean of rows [i-w+1 .. i]
    afterwards; a window of 0 has no row to average and every row is
    missing. *)
Definition rolling_mean (w : nat) (xs : list Q) : list fnum :=
  map (fun i =>
         if Nat.ltb (S i) w || Nat.eqb w 0 then None
         else Some (sum (firstn w (skipn (S i - w) xs)) / inject_Z (Z.of_nat w)))
      (seq 0 (length xs)).

(** [Series.diff()]: the first row has no predecessor. *)
Definition diff (xs : list Q) : list fnum :=
  match xs with
  | [] => []
  | _ :: rest => NaN :: map (fun p => Some (snd p - fst p)) (combine xs rest)
  end.

(** [Series.clip(lower=l)], [Series.clip(upper=u)] and unary minus; a
    missing cell stays missing. *)
Definition clip_lower (l : Q) (col : list fnum) : list fnum :=
  map (fun c => match c with
                | Some v => Some (if Qltb v l then l else v)
                | None => None
                end) col.

Definition clip_upper (u : Q) (col : list fnum) : list fnum :=
  map (fun c => match c with
                | Some v => Some (if Qltb u v then u else v)
                | None => None
                end) col.

Definition neg (col : list fnum) : list fnum :=
  map (fun c => match c with Some v => Some (- v) | None => None end) col.

(** The values of a window, when none of its cells is missing. *)
Fixpoint cells (window : list fnum) : option (list Q) :=
  match window with
  | [] => Some []
  | Some v :: rest =>
      match cells rest with
      | Some vals => Some (v :: vals)
      | None => None
      end
  | None :: _ => None
  end.

(** [Series.rolling(window=w).mean()] on a column with missing cells:
    a row is missing while fewer than [w] rows are available or while
    its window holds a missing cell; with a window of 0 every row is
    missing. *)
Definition rolling_mean_na (w : nat) (col : list fnum) : list fnum :=
  map (fun i =>
         if Nat.ltb (S i) w || Nat.eqb w 0 then None
         else
           match cells (firstn w (skipn (S i - w) col)) with
           | Some vals => Some (sum vals / inject_Z (Z.of_nat w))
           | None => None
           end)
      (seq 0 (length col)).

(** [Series.ewm(span=span, adjust=False).mean()]: the first row is the
    first value, every later row is
    [(1 - alpha) * previous + alpha * value] with
    [alpha = 2 / (span + 1)]; [None] stands for the [ValueError] of a
    span below 1. *)
Fixpoint ewm_from (alpha prev : Q) (xs : list Q) : list Q :=
  match xs with
  | [] => []
  | x :: rest =>
      let y := (1 - alpha) * prev + alpha * x in
      y :: ewm_from alpha y rest
  end.

Definition ewm_mean (span : nat) (xs : list Q) : option (list Q) :=
  if Nat.ltb span 1 then None
  else
    let alpha := 2 / (inject_Z (Z.of_nat span) + 1) in
    Some (match xs with
          | [] => []
          | x :: rest => x :: ewm_from alpha x rest
          end).

(** A float that may be infinite: the quotient of two cells, as numpy
    divides (x / 0 is infinite, 0 / 0 and anything missing is
    undefined).  The sign of an infinity is not kept. *)
Inductive cell : Type :=
| Finite (v : Q)
| Infinite
| Undefined.

Definition div_cell (a b : fnum) : cell :=
  match a, b with
  | Some x, Some y =>
      if Qeq_bool y 0 then (if Qeq_bool x 0 then Undefined else Infinite)
      else Finite (x / y)
  | _, _ => Undefined
  end.

End Pandas.

Module Talib.

(** [talib_polyfill.SMA(data, timeperiod)]. *)
Definition SMA (data : list Q) (timeperiod : nat) : list fnum :=
  Pandas.rolling_mean timeperiod data.

(** [talib_polyfill.EMA(data, timeperiod)]. *)
Definition EMA (data : list Q) (timeperiod : nat) : option (list Q) :=
  Pandas.ewm_mean timeperiod data.

(** Row by row difference of two columns of one length. *)
Definition minus (a b : list Q) : list Q :=
  map (fun p => fst p - snd p) (combine a b).

(** [talib_polyfill.MACD(data, fastperiod, slowperiod, signalperiod)]:
    the MACD line, the signal line and the histogram. *)
Definition MACD (data : list Q) (fastperiod slowperiod signalperiod : nat)
    : option (list Q * list Q * list Q) :=
  match Pandas.ewm_mean fastperiod data with
  | None => None
  | Some fast_ema =>
      match Pandas.ewm_mean slowperiod data with
      | None => None
      | Some slow_ema =>
          let macd_line := minus fast_ema slow_ema in
          match Pandas.ewm_mean signalperiod macd_line with
          | None => None
          | Some signal_line =>
              let histogram := minus macd_line signal_line in
              Some (macd_line, signal_line, histogram)
          end
      end
  end.

(** [100 - (100 / (1 + rs))] on one cell: an infinite [rs] gives
    [100 - 0]. *)
Definition rsi_of (rs : Pandas.cell) : Pandas.cell :=
  match rs with
  | Pandas.Undefined => Pandas.Undefined
  | Pandas.Infinite => Pandas.Finite 100
  | Pandas.Finite r =>
      if Qeq_bool (1 + r) 0 then Pandas.Infinite
      else Pandas.Finite (100 - 100 / (1 + r))
  end.

(** [talib_polyfill.RSI(data, timeperiod)]. *)
Definition RSI (data : list Q) (timeperiod : nat) : list Pandas.cell :=
  let delta := Pandas.diff data in
  let up := Pandas.clip_lower 0 delta in
  let down := Pandas.neg (Pandas.clip_upper 0 delta) in
  let ma_up := Pandas.rolling_mean_na timeperiod up in
  let ma_down := Pandas.rolling_mean_na timeperiod down in
  map (fun p => rsi_of (Pandas.div_cell (fst p) (snd p)))
      (combine ma_up ma_down).

End Talib.

(** ** MicroStrategy *)

Module MicroStrategy.

(** One row of [self.data]: the close and the indicator and signal
    columns the rules read. *)
Record row := mkRow {
  close : Q;
  fastMA : fnum;
  slowMA : fnum;
  RSI : fnum;
  MACD : fnum;
  MACD_signal : fnum;
  upper_band : fnum;
  middle_band : fnum;
  lower_band : fnum;
  stoch_k : fnum;
  stoch_d : fnum;
  open_long : bool;
  close_long : bool
}.

(** The indicator columns as [talib] returns them, before the fills. *)
Record columns := mkColumns {
  c_fastMA : list fnum;
  c_slowMA : list fnum;
  c_RSI : list fnum;
  c_MACD : list fnum;
  c_MACD_signal : list fnum;
  c_upper_band : list fnum;
  c_middle_band : list fnum;
  c_lower_band : list fnum;
  c_stoch_k : list fnum;
  c_stoch_d : list fnum
}.

(** The two loops that end [populate_indicators]: every column but
    [fastMA] is forward-filled, then every column is backward-filled. *)
Definition fill_columns (raw : columns) : columns :=
  let ff := Pandas.ffill in
  let bf := Pandas.bfill in
  {| c_fastMA := bf (c_fastMA raw);
     c_slowMA := bf (ff (c_slowMA raw));
     c_RSI := bf (ff (c_RSI raw));
     c_MACD := bf (ff (c_MACD raw));
     c_MACD_signal := bf (ff (c_MACD_signal raw));
     c_upper_band := bf (ff (c_upper_band raw));
     c_middle_band := bf (ff (c_middle_band raw));
     c_lower_band := bf (ff (c_lower_band raw));
     c_stoch_k := bf (ff (c_stoch_k raw));
     c_stoch_d := bf (ff (c_stoch_d raw)) |}.

(** The state of a strategy object. [take_profit_threshold] and
    [stop_loss_threshold] are assigned once in [__init__] and never
    again, so they are constants here. *)
Record t := mk {
  data : list row;
  balance : Q;
  btc_holdings : Q;
  trade_amount : Q;
  fee : Q;
  last_buy_price : Q
}.

Definition take_profit_threshold : Q := 1.025.
Definition stop_loss_threshold : Q := 0.985.

Definition set_data (d : list row) (s : t) : t :=
  mk d (balance s) (btc_holdings s) (trade_amount s) (fee s) (last_buy_price s).
Definition set_balance (b : Q) (s : t) : t :=
  mk (data s) b (btc_holdings s) (trade_amount s) (fee s) (last_buy_price s).
Definition set_btc_holdings (h : Q) (s : t) : t :=
  mk (data s) (balance s) h (trade_amount s) (fee s) (last_buy_price s).
Definition set_trade_amount (a : Q) (s : t) : t :=
  mk (data s) (balance s) (btc_holdings s) a (fee s) (last_buy_price s).
Definition set_last_buy_price (p : Q) (s : t) : t :=
  mk (data s) (balance s) (btc_holdings s) (trade_amount s) (fee s) p.

(** *** populate_indicators *)

(** Row [i] with its ten indicator cells read from the columns. *)
Definition with_indicators (cols : columns) (i : nat) (r : row) : row :=
  mkRow (close r)
        (nth i (c_fastMA cols) NaN) (nth i (c_slowMA cols) NaN)
        (nth i (c_RSI cols) NaN)
        (nth i (c_MACD cols) NaN) (nth i (c_MACD_signal cols) NaN)
        (nth i (c_upper_band cols) NaN) (nth i (c_middle_band cols) NaN)
        (nth i (c_lower_band cols) NaN)
        (nth i (c_stoch_k cols) NaN) (nth i (c_stoch_d cols) NaN)
        (open_long r) (close_long r).

(** [populate_indicators]: [talib] holds the ten arrays that the calls
    to the [talib] library return for the frame, one cell for each row;
    they are assigned to the columns, which are then filled. *)
Definition populate_indicators (talib : columns) (s : t) : t :=
  let filled := fill_columns talib in
  set_data
    (map (fun ir => with_indicators filled (fst ir) (snd ir))
         (combine (seq 0 (length (data s))) (data s)))
    s.

(** *** populate_signals *)

Definition open_long_rule (r : row) : bool :=
  (fgt (fastMA r) (slowMA r) && flt (RSI r) (Some 52))
  || (fgt (MACD r) (fmul (MACD_signal r) 1.1) && flt (RSI r) (Some 55))
  || (flt (RSI r) (Some 35) && fgt (MACD r) (MACD_signal r))
  || (flt (Some (close r)) (fmul (lower_band r) 1.01)
      && flt (stoch_k r) (Some 30))
  || (flt (stoch_k r) (Some 30) && fgt (stoch_k r) (stoch_d r)).

(** The five conditions common to both branches of the exit rule. *)
Definition bearish_rule (r : row) : bool :=
  (flt (fastMA r) (slowMA r) && fgt (RSI r) (Some 55))
  || fgt (RSI r) (Some 65)
  || (flt (MACD r) (MACD_signal r) && fgt (Some (close r)) (middle_band r))
  || fgt (Some (close r)) (fmul (upper_band r) 0.98)
  || (fgt (stoch_k r) (Some 70) && flt (stoch_k r) (stoch_d r)).

Definition close_long_rule (last_buy : Q) (r : row) : bool :=
  if Qltb 0 last_buy then
    let take_profit_price :=
      Float.mul last_buy (Float.round take_profit_threshold) in
    let stop_loss_price :=
      Float.mul last_buy (Float.round stop_loss_threshold) in
    Qle_bool take_profit_price (close r)
    || Qle_bool (close r) stop_loss_price
    || bearish_rule r
  else bearish_rule r.

Definition signal_row (last_buy : Q) (r : row) : row :=
  mkRow (close r) (fastMA r) (slowMA r) (RSI r) (MACD r) (MACD_signal r)
        (upper_band r) (middle_band r) (lower_band r) (stoch_k r) (stoch_d r)
        (open_long_rule r) (close_long_rule last_buy r).

Definition populate_signals (s : t) : t :=
  set_data (map (signal_row (last_buy_price s)) (data s)) s.

(** *** Orders *)

Inductive event : Type :=
| Info_take_profit (price : Q)
| Info_stop_loss (price : Q)
| Info_profit (profit profit_pct : Q)
| Info_buy (btc_bought price balance_after : Q)
| Info_sell (btc_sold price balance_after : Q)
| Warning_cannot_buy (balance_now price : Q)
| Warning_cannot_sell (holdings_now price : Q).

Definition is_buy (e : event) : bool :=
  match e with Info_buy _ _ _ => true | _ => false end.

Definition is_sell (e : event) : bool :=
  match e with Info_sell _ _ _ => true | _ => false end.

Definition is_order (e : event) : bool := is_buy e || is_sell e.

(** [buy_position(price)]: the guard, then holdings, balance and entry
    price are updated in that order, from the [trade_amount] found in
    the object. *)
Definition buy_position (price : Q) (s : t) : t * list event :=
  if Qle_bool (balance s) 0 || Qle_bool price 0 then
    (s, [Warning_cannot_buy (balance s) price])
  else
    let btc_bought := (trade_amount s / price) * (1 - fee s) in
    let s1 := set_btc_holdings (btc_holdings s + btc_bought) s in
    let s2 := set_balance (balance s1 - trade_amount s1) s1 in
    let s3 := set_last_buy_price price s2 in
    (s3, [Info_buy btc_bought price (balance s3)]).

(** [sell_position(price)]: the guard, then the whole holding is sold;
    [last_buy_price] is read for the profit line and not written. *)
Definition sell_position (price : Q) (s : t) : t * list event :=
  if Qle_bool (btc_holdings s) 0 || Qle_bool price 0 then
    (s, [Warning_cannot_sell (btc_holdings s) price])
  else
    let sale_value := btc_holdings s * price * (1 - fee s) in
    let profit_log :=
      if Qltb 0 (last_buy_price s) then
        let profit := sale_value - btc_holdings s * last_buy_price s in
        let profit_pct :=
          profit / (btc_holdings s * last_buy_price s) * 100 in
        [Info_profit profit profit_pct]
      else [] in
    let s1 := set_balance (balance s + sale_value) s in
    let sold := Info_sell (btc_holdings s1) price (balance s1) in
    let s2 := set_btc_holdings 0 s1 in
    (s2, profit_log ++ [sold]).

(** The row (or dict) handed to [evaluate_orders]: [close] is read with
    [[]], the two signals with [.get(..., False)]. *)
Record latest_row := mkLatest {
  lr_close : Q;
  lr_open_long : option bool;
  lr_close_long : option bool
}.

Definition get (cell : option bool) (default : bool) : bool :=
  match cell with Some b => b | None => default end.

Definition log_then (e : event) (r : t * list event) : t * list event :=
  (fst r, e :: snd r).

(** [evaluate_orders(timestamp, latest_row)].  Each [return] of the body
    ends a branch here.  The body sits in a [try] whose handler only
    logs; on rationals none of its statements raises.  The debug line on
    entry is left out of the log. *)
Definition evaluate_orders (lr : latest_row) (s0 : t) : t * list event :=
  let current_price := lr_close lr in
  let s := set_trade_amount (py_min (balance s0 * 0.95) (balance s0)) s0 in
  if Qltb 0 (btc_holdings s) then
    let entry_price :=
      if Qltb 0 (last_buy_price s) then last_buy_price s else current_price in
    let take_profit_price := entry_price * take_profit_threshold in
    let stop_loss_price := entry_price * stop_loss_threshold in
    if Qle_bool take_profit_price current_price then
      log_then (Info_take_profit current_price) (sell_position current_price s)
    else if Qle_bool current_price stop_loss_price then
      log_then (Info_stop_loss current_price) (sell_position current_price s)
    else if get (lr_close_long lr) false then
      sell_position current_price s
    else (s, [])
  else if Qle_bool 10 (balance s) && get (lr_open_long lr) false then
    buy_position current_price s
  else (s, []).

(** [MicroStrategy(params, data, balance, btc_holdings, fee)]; the rows
    of [data] carry the indicator columns already. *)
Definition init (d : list row) (balance0 btc0 fee0 : Q) : t :=
  populate_signals (mk d balance0 btc0 (balance0 * 0.95) fee0 0).

End MicroStrategy.

(** ** TradingGame ([trading_game.py]) *)

Module TradingGame.

(** One entry of [balance_history], without its wall-clock time:
    cash, holdings, price, total value. *)
Definition snapshot : Type := (Q * Q * Q * Q)%type.

Record t := mk {
  starting_balance : Q;
  fake_money : Q;
  btc_holdings : Q;
  strategy : MicroStrategy.t;
  balance_history : list snapshot
}.

(** The branch of [execute_game_logic] that picks between recovery and
    the strategy's own evaluation. *)
Definition recovery_or_normal (btc_price : Q)
    (current_data : MicroStrategy.latest_row) (starting : Q)
    (st : MicroStrategy.t) : MicroStrategy.t * list MicroStrategy.event :=
  if Qltb (MicroStrategy.balance st) (starting * 0.95) then
    if Qltb 0 (MicroStrategy.btc_holdings st) then
      let sell_price :=
        py_max btc_price (MicroStrategy.last_buy_price st * 1.03) in
      MicroStrategy.sell_position sell_price st
    else if Qle_bool 10 (MicroStrategy.balance st) then
      MicroStrategy.buy_position btc_price
        (MicroStrategy.set_trade_amount (MicroStrategy.balance st * 0.95) st)
    else (st, [])
  else MicroStrategy.evaluate_orders current_data st.

(** [execute_game_logic]: [btc_price] is what [update_price] returned;
    [window ++ [latest]] is [strategy.data] after the new row was
    appended and the indicators refreshed.  The result is the game
    after the tick, the lines logged and [profit_pct]; [None] stands
    for the [ZeroDivisionError] of a zero starting balance, which ends
    the session in the handler of [run_game]. *)
Definition execute_game_logic (btc_price : Q)
    (window : list MicroStrategy.row) (latest : MicroStrategy.row) (g : t)
    : option (t * list MicroStrategy.event * Q) :=
  let st0 :=
    MicroStrategy.populate_signals
      (MicroStrategy.set_data (window ++ [latest]) (strategy g)) in
  let last_row := last (MicroStrategy.data st0) latest in
  let current_data :=
    MicroStrategy.mkLatest btc_price
      (Some (MicroStrategy.open_long last_row))
      (Some (MicroStrategy.close_long last_row)) in
  let '(st, log) :=
    recovery_or_normal btc_price current_data (starting_balance g) st0 in
  let cash := MicroStrategy.balance st in
  let btc := MicroStrategy.btc_holdings st in
  let total_value := cash + btc * btc_price in
  if Qeq_bool (starting_balance g) 0 then None
  else
    let profit_pct := (total_value / starting_balance g - 1) * 100 in
    Some (mk (starting_balance g) cash btc st
             (balance_history g ++ [(cash, btc, btc_price, total_value)]),
          log, profit_pct).

(** What one pass of the game loop is fed: the price [update_price]
    returns and the frame after the refresh. *)
Record tick := mkTick {
  tick_price : Q;
  tick_window : list MicroStrategy.row;
  tick_latest : MicroStrategy.row
}.

(** The [while] loop of [run_game] over the ticks that fit in the time
    limit: the game reached, the current price, and the profit on which
    the loop was left by [break] ([None] when time ran out).  The outer
    [None] stands for an exception. *)
Fixpoint game_loop (win_percentage : Q) (ticks : list tick) (g : t)
    (current_price : Q) : option (t * Q * option Q) :=
  match ticks with
  | [] => Some (g, current_price, None)
  | k :: rest =>
      match execute_game_logic (tick_price k) (tick_window k)
              (tick_latest k) g with
      | None => None
      | Some (g', _, profit_pct) =>
          if Qle_bool win_percentage profit_pct then
            Some (g', tick_price k, Some profit_pct)
          else game_loop win_percentage rest g' (tick_price k)
      end
  end.

(** [run_game]: [initial_price] is the price fetched before the loop,
    [report_written] tells whether [generate_game_report] returned.  When
    time ran out the profit is computed again from the state reached; an
    exception makes the game return [False].  A user interrupt is left
    out. *)
Definition run_game (win_percentage initial_price : Q) (ticks : list tick)
    (report_written : bool) (g : t) : bool :=
  match game_loop win_percentage ticks g initial_price with
  | None => false
  | Some (g', _, Some profit_pct) =>
      if report_written then Qle_bool win_percentage profit_pct else false
  | Some (g', price, None) =>
      if Qeq_bool (starting_balance g') 0 then false
      else
        let total_value := fake_money g' + btc_holdings g' * price in
        let profit_pct := (total_value / starting_balance g' - 1) * 100 in
        if report_written then Qle_bool win_percentage profit_pct else false
  end.

End TradingGame.

(** ** FakeMoneyGame over BaseTradingGame ([trading/]) *)

Module FakeMoneyGame.

Record t := mk {
  starting_balance : Q;
  balance : Q;
  btc_holdings : Q;
  fee : Q;
  current_price : Q;
  strategy : MicroStrategy.t;
  balance_history : list TradingGame.snapshot
}.

Inductive action : Type := buy | sell.

Definition set_strategy (st : MicroStrategy.t) (g : t) : t :=
  mk (starting_balance g) (balance g) (btc_holdings g) (fee g)
     (current_price g) st (balance_history g).

Definition set_current_price (p : Q) (g : t) : t :=
  mk (starting_balance g) (balance g) (btc_holdings g) (fee g)
     p (strategy g) (balance_history g).

(** [FakeMoneyGame.execute_trade(action, amount)]. *)
Definition execute_trade (a : action) (amount : Q) (g : t) : t * bool :=
  match a with
  | buy =>
      let cost := amount * current_price g in
      let fee_cost := cost * fee g in
      let total_cost := cost + fee_cost in
      if Qle_bool total_cost (balance g) then
        let balance' := balance g - total_cost in
        let btc' := btc_holdings g + amount in
        let st :=
          MicroStrategy.set_last_buy_price (current_price g)
            (MicroStrategy.set_btc_holdings btc'
               (MicroStrategy.set_balance balance' (strategy g))) in
        (mk (starting_balance g) balance' btc' (fee g) (current_price g) st
            (balance_history g), true)
      else (g, false)
  | sell =>
      if Qle_bool amount 0 then (g, false)
      else
        let proceeds := amount * current_price g in
        let fee_cost := proceeds * fee g in
        let net_proceeds := proceeds - fee_cost in
        let balance' := balance g + net_proceeds in
        let btc' := btc_holdings g - amount in
        let st :=
          MicroStrategy.set_btc_holdings btc'
            (MicroStrategy.set_balance balance' (strategy g)) in
        (mk (starting_balance g) balance' btc' (fee g) (current_price g) st
            (balance_history g), true)
  end.

(** The recovery-or-normal branch of
    [BaseTradingGame.execute_game_logic].  [evaluate_orders] has no
    [return] with a value, so [action] is [None] and neither
    [action == 'buy'] nor [action == 'sell'] holds.  [None] stands for
    the [ZeroDivisionError] of [trade_amount / btc_price]. *)
Definition recovery_or_normal (btc_price : Q)
    (current_data : MicroStrategy.latest_row) (g : t)
    : option (t * list MicroStrategy.event) :=
  let st := strategy g in
  if Qltb (MicroStrategy.balance st) (starting_balance g * 0.95) then
    if Qltb 0 (MicroStrategy.btc_holdings st) then
      Some (fst (execute_trade sell (btc_holdings g) g), [])
    else if Qle_bool 10 (MicroStrategy.balance st) then
      let trade_amount := MicroStrategy.balance st * 0.95 in
      if Qeq_bool btc_price 0 then None
      else Some (fst (execute_trade buy (trade_amount / btc_price) g), [])
    else Some (g, [])
  else
    let '(st', log) := MicroStrategy.evaluate_orders current_data st in
    Some (set_strategy st' g, log).

(** [BaseTradingGame.execute_game_logic]; [update_price] stores the
    price it returns in [current_price].  [None] stands for an
    exception, which ends the session in the handler of [run]. *)
Definition execute_game_logic (btc_price : Q)
    (window : list MicroStrategy.row) (latest : MicroStrategy.row) (g0 : t)
    : option (t * list MicroStrategy.event * Q) :=
  let g1 := set_current_price btc_price g0 in
  let st0 :=
    MicroStrategy.populate_signals
      (MicroStrategy.set_data (window ++ [latest]) (strategy g1)) in
  let g2 := set_strategy st0 g1 in
  let last_row := last (MicroStrategy.data st0) latest in
  let current_data :=
    MicroStrategy.mkLatest btc_price
      (Some (MicroStrategy.open_long last_row))
      (Some (MicroStrategy.close_long last_row)) in
  match recovery_or_normal btc_price current_data g2 with
  | None => None
  | Some (g, log) =>
      let total_value := balance g + btc_holdings g * btc_price in
      if Qeq_bool (starting_balance g) 0 then None
      else
        let profit_pct := (total_value / starting_balance g - 1) * 100 in
        Some (mk (starting_balance g) (balance g) (btc_holdings g) (fee g)
                 (current_price g) (strategy g)
                 (balance_history g
                    ++ [(balance g, btc_holdings g, btc_price, total_value)]),
              log, profit_pct)
  end.

(** [FakeMoneyGame(starting_balance)] with the rows of the loaded price
    data. *)
Definition init (starting : Q) (d : list MicroStrategy.row) : t :=
  mk starting starting 0 0.001 0 (MicroStrategy.init d starting 0 0.001) [].

End FakeMoneyGame.

(** ** LiveTrader ([live_trading/live_trader.py]) *)

Module LiveTrader.

Record t := mk {
  start_balance : Q;
  trades_today : Z;
  max_daily_trades : Z;
  max_daily_drawdown_percent : Q;
  trading_enabled : bool;
  check_interval : Q;
  strategy : MicroStrategy.t
}.

(** What the exchange answers during one pass of the loop:
    [get_balance()], the frame after [update_price_data] and the
    indicator refresh ([None] when the update returned nothing), and
    whether [place_market_buy] / [place_market_sell] returned an
    order. *)
Record env := mkEnv {
  get_balance : Q;
  price_data : option (list MicroStrategy.row * MicroStrategy.row);
  order_placed : bool
}.

Definition set_strategy (st : MicroStrategy.t) (lt : t) : t :=
  mk (start_balance lt) (trades_today lt) (max_daily_trades lt)
     (max_daily_drawdown_percent lt) (trading_enabled lt)
     (check_interval lt) st.

Definition set_trades_today (n : Z) (lt : t) : t :=
  mk (start_balance lt) n (max_daily_trades lt)
     (max_daily_drawdown_percent lt) (trading_enabled lt)
     (check_interval lt) (strategy lt).

(** [((current_balance / starting_balance) - 1) * 100], each of the
    three operations rounded. *)
Definition daily_change_pct (e : env) (lt : t) : Q :=
  Float.mul (Float.sub (Float.div (get_balance e) (start_balance lt)) 1) 100.

(** [_check_risk_limits]; [None] stands for the [ZeroDivisionError] of
    a zero starting balance. *)
Definition check_risk_limits (e : env) (lt : t) : option bool :=
  if (max_daily_trades lt <=? trades_today lt)%Z then Some false
  else if Qeq_bool (start_balance lt) 0 then None
  else
    let max_drawdown := - Qabs (max_daily_drawdown_percent lt) in
    if Qle_bool (daily_change_pct e lt) max_drawdown then Some false
    else Some true.

Definition execute_buy (e : env) (price : Q) (lt : t)
    : t * list MicroStrategy.event :=
  if negb (trading_enabled lt) then (lt, [])
  else if order_placed e then
    let '(st, log) := MicroStrategy.buy_position price (strategy lt) in
    (set_trades_today (trades_today lt + 1) (set_strategy st lt), log)
  else (lt, []).

Definition execute_sell (e : env) (price : Q) (lt : t)
    : t * list MicroStrategy.event :=
  if negb (trading_enabled lt) then (lt, [])
  else if order_placed e then
    let '(st, log) := MicroStrategy.sell_position price (strategy lt) in
    (set_trades_today (trades_today lt + 1) (set_strategy st lt), log)
  else (lt, []).

(** One pass through the body of [while True] in [run_trading_loop]. *)
Inductive pass : Type :=
| Paused (lt : t)
    (* risk limits exceeded: sleep 300 seconds, continue *)
| Skipped (lt : t)
    (* no price: sleep [check_interval], continue *)
| Ticked (lt : t) (log : list MicroStrategy.event)
    (* signals evaluated: sleep [check_interval] *)
| Raised (lt : t).
    (* an exception reached the handler around the loop *)

Definition loop_body (e : env) (lt : t) : pass :=
  match check_risk_limits e lt with
  | None => Raised lt
  | Some false => Paused lt
  | Some true =>
      match price_data e with
      | None => Skipped lt
      | Some (window, latest) =>
          let current_price := MicroStrategy.close latest in
          if Qeq_bool current_price 0 then Skipped lt
          else
            let st :=
              MicroStrategy.populate_signals
                (MicroStrategy.set_data (window ++ [latest]) (strategy lt)) in
            let lt1 := set_strategy st lt in
            let latest_row := last (MicroStrategy.data st) latest in
            let buy_signal := MicroStrategy.open_long latest_row in
            let sell_signal := MicroStrategy.close_long latest_row in
            if Qltb 0 (MicroStrategy.btc_holdings st) && sell_signal then
              let '(lt2, log) := execute_sell e current_price lt1 in
              Ticked lt2 log
            else if Qltb 10 (MicroStrategy.balance st) && buy_signal then
              let '(lt2, log) := execute_buy e current_price lt1 in
              Ticked lt2 log
            else Ticked lt1 []
      end
  end.

Definition after (p : pass) : t :=
  match p with
  | Paused lt | Skipped lt | Ticked lt _ | Raised lt => lt
  end.

Definition log_of (p : pass) : list MicroStrategy.event :=
  match p with Ticked _ log => log | _ => [] end.


(** [run_trading_loop] along the answers of the exchange, one per
    pass: the trader reached, whether the loop is still running, and
    the lines logged by the strategy. *)
Fixpoint run_trading_loop (envs : list env) (lt : t)
    : t * bool * list MicroStrategy.event :=
  match envs with
  | [] => (lt, true, [])
  | e :: rest =>
      match loop_body e lt with
      | Raised lt' => (lt', false, [])
      | p =>
          let '(lt', running, log) := run_trading_loop rest (after p) in
          (lt', running, log_of p ++ log)
      end
  end.

(** [LiveTrader(config)]: the starting balance is what the exchange
    reports, the strategy starts flat on it. *)
Definition init (balance0 : Q) (max_trades : Z) (max_drawdown : Q)
    (enabled : bool) (interval : Q) (fee_percentage : Q)
    (d : list MicroStrategy.row) : t :=
  mk balance0 0 max_trades max_drawdown enabled interval
     (MicroStrategy.init d balance0 0 (fee_percentage / 100)).

End LiveTrader.

(** ** The candle frame of the live trader *)

Module LiveData.

Record candle := mkCandle {
  timestamp : Z;
  open : Q;
  high : Q;
  low : Q;
  close : Q;
  volume : Q
}.

(** [df.iloc[-n:]]. *)
Definition iloc_tail (n : nat) (rows : list candle) : list candle :=
  skipn (length rows - n) rows.

(** [LiveTrader._initialize_price_data] on what [get_ohlcv] returned;
    [None] stands for the [ValueError] of fewer than 100 candles. *)
Definition initialize_price_data (ohlcv : list candle)
    : option (list candle) :=
  if Nat.ltb (length ohlcv) 100 then None else Some ohlcv.

(** [LiveTrader.update_price_data] on what [get_ohlcv(limit=1)] returned:
    the new frame and the returned price. *)
Definition update_price_data (latest_ohlcv price_data : list candle)
    : list candle * option Q :=
  match latest_ohlcv with
  | [] => (price_data, None)
  | latest :: _ =>
      let same_candle :=
        match price_data with
        | [] => false
        | _ :: _ =>
            Z.eqb (timestamp latest) (timestamp (last price_data latest))
        end in
      let updated :=
        if same_candle then removelast price_data ++ [latest]
        else price_data ++ [latest] in
      let kept :=
        if Nat.ltb 300 (length updated) then iloc_tail 300 updated
        else updated in
      (kept, Some (close (last kept latest)))
  end.

(** The frame after a series of updates. *)
Definition updates (fetched : list (list candle)) (price_data : list candle)
    : list candle :=
  fold_left (fun frame latest_ohlcv =>
               fst (update_price_data latest_ohlcv frame))
            fetched price_data.

(** [self.strategy.data = self.price_data.copy()] in the trading loop:
    the candles as rows of the strategy.  The indicator and signal
    columns are written afterwards, by [populate_indicators] and
    [populate_signals]. *)
Definition rows (price_data : list candle) : list MicroStrategy.row :=
  map (fun c => MicroStrategy.mkRow (close c) NaN NaN NaN NaN NaN NaN NaN
                  NaN NaN NaN false false)
      price_data.

End LiveData.

(** ** ExchangeHandler ([live_trading/exchange_handler.py]) *)

Module ExchangeHandler.

Record t := mk {
  trading_enabled : bool;
  paper_trading : bool;
  starting_balance : Q
}.

(** What the ccxt exchange answers to each call; [None] stands for a
    raised exception.  [fetch_balance] carries the total of the asked
    currency when the answer lists it, [fetch_ticker] the last price. *)
Record answers := mkAnswers {
  fetch_balance : option (option Q);
  fetch_ticker : option Q;
  create_order : option Z
}.

(** The calls made on the ccxt exchange. *)
Inductive call : Type :=
| Fetch_balance
| Fetch_ticker
| Create_market_buy_order (amount : Q)
| Create_market_sell_order (amount : Q).

Inductive order : Type :=
| Simulation (amount : Q)
| Paper_trade (amount price : Q)
| Exchange_order (id : Z).

Definition is_create (c : call) : bool :=
  match c with
  | Create_market_buy_order _ | Create_market_sell_order _ => true
  | _ => false
  end.

Definition get_balance (a : answers) (h : t) : Q * list call :=
  if paper_trading h then (starting_balance h, [])
  else
    (match fetch_balance a with
     | Some (Some total) => total
     | Some None => 0
     | None => 0
     end, [Fetch_balance]).

Definition paper_price (a : answers) : Q :=
  match fetch_ticker a with Some price => price | None => 0 end.

Definition place_market_buy (a : answers) (amount : Q) (h : t)
    : option order * list call :=
  if negb (trading_enabled h) then (Some (Simulation amount), [])
  else if paper_trading h then
    (Some (Paper_trade amount (paper_price a)), [Fetch_ticker])
  else
    (match create_order a with
     | Some id => Some (Exchange_order id)
     | None => None
     end, [Create_market_buy_order amount]).

Definition place_market_sell (a : answers) (amount : Q) (h : t)
    : option order * list call :=
  if negb (trading_enabled h) then (Some (Simulation amount), [])
  else if paper_trading h then
    (Some (Paper_trade amount (paper_price a)), [Fetch_ticker])
  else
    (match create_order a with
     | Some id => Some (Exchange_order id)
     | None => None
     end, [Create_market_sell_order amount]).

End ExchangeHandler.

(** ** The live trader on its exchange handler *)

Module Session.

(** What one pass of [run_trading_loop] sees: the balance is what
    [self.exchange.get_balance()] answers, in paper mode the configured
    starting balance and otherwise the total the exchange reports. *)
Definition env (a : ExchangeHandler.answers) (h : ExchangeHandler.t)
    (price_data : option (list MicroStrategy.row * MicroStrategy.row))
    (order_placed : bool) : LiveTrader.env :=
  LiveTrader.mkEnv (fst (ExchangeHandler.get_balance a h)) price_data
    order_placed.

End Session.

(** ** Start-up of the live trader *)

Module Startup.

Import String.

(** The options of [config.json] that the start-up reads. *)
Record config := mkConfig {
  paper_trading_mode : bool;
  trading_enabled : bool;
  starting_balance : Q
}.

(** [ExchangeHandler(config_path)]: its flags are read from the
    configuration once, when it is built. *)
Definition exchange_handler (cfg : config) : ExchangeHandler.t :=
  ExchangeHandler.mk (trading_enabled cfg) (paper_trading_mode cfg)
    (starting_balance cfg).

(** What [LiveTrader.__init__] leaves behind as far as the trading mode
    goes: the trader's own flag, its handler, and the configuration as
    it is held and, when rewritten, saved. *)
Record started := mkStarted {
  paper_trading : bool;
  exchange : ExchangeHandler.t;
  held_config : config;
  saved : bool
}.

(** The answer that keeps real trading on. *)
Definition CONFIRM : string := "CONFIRM"%string.

(** [_display_warnings] asks for a confirmation only when real trading
    is configured; any answer but CONFIRM turns the trader's flag and the
    configuration to paper mode and saves the configuration. *)
Definition display_warnings (user_confirm : String.string) (st : started)
    : started :=
  if negb (paper_trading st) && trading_enabled (held_config st) then
    if negb (String.eqb user_confirm CONFIRM) then
      mkStarted true (exchange st)
        (mkConfig true (trading_enabled (held_config st))
           (starting_balance (held_config st)))
        true
    else st
  else st.

(** [LiveTrader.__init__]: the handler is built first, the question is
    asked last. *)
Definition init (cfg : config) (user_confirm : String.string) : started :=
  display_warnings user_confirm
    (mkStarted (paper_trading_mode cfg) (exchange_handler cfg) cfg false).

End Startup.

(** ** Cleaning old game results ([cleanup.py]) *)

Module Cleanup.

(** A file found by the three globs: its path, and the session time read
    from its name, [None] when the name holds no timestamp that parses.
    Times are numbers in the order of their dates. *)
Record file := mkFile {
  path : nat;
  stamp : option Z
}.

(** One entry of [sessions]: the session time and its files. *)
Definition session : Type := (Z * list file)%type.

(** [sessions[timestamp_str]['files'].append(file_path)], with a new entry
    at the end when the key is new. *)
Fixpoint add_file (ts : Z) (f : file) (sessions : list session)
    : list session :=
  match sessions with
  | [] => [(ts, [f])]
  | (key, files) :: rest =>
      if Z.eqb key ts then (key, files ++ [f]) :: rest
      else (key, files) :: add_file ts f rest
  end.

Definition group (all_files : list file) : list session :=
  fold_left (fun sessions f =>
               match stamp f with
               | Some ts => add_file ts f sessions
               | None => sessions
               end)
            all_files [].

(** [sorted(sessions.values(), key=datetime, reverse=True)]: newest
    first.  The keys of a dict are distinct, so the order is the only
    one. *)
Fixpoint insert_newest_first (s : session) (sorted : list session)
    : list session :=
  match sorted with
  | [] => [s]
  | h :: rest =>
      if Z.ltb (fst h) (fst s) then s :: sorted
      else h :: insert_newest_first s rest
  end.

Definition sorted_sessions (sessions : list session) : list session :=
  fold_right insert_newest_first [] sessions.

(** [cleanup_game_results]: the files [os.remove] is called on.
    [is_dir] tells whether the results directory exists. *)
Definition cleanup_game_results (is_dir : bool) (all_files : list file)
    (keep_last : Z) (dry_run : bool) : list file :=
  if negb is_dir then []
  else
    let sorted := sorted_sessions (group all_files) in
    if (Z.of_nat (length sorted) <=? keep_last)%Z then []
    else if dry_run then []
    else flat_map snd (skipn (Z.to_nat keep_last) sorted).

End Cleanup.

(** ** Vocabulary of the properties *)

Module Spec.

(** The lines of a log that record an executed order. *)
Definition orders (log : list MicroStrategy.event)
    : list MicroStrategy.event :=
  filter MicroStrategy.is_order log.

Definition bought (log : list MicroStrategy.event) : bool :=
  existsb MicroStrategy.is_buy log.

Definition sold (log : list MicroStrategy.event) : bool :=
  existsb MicroStrategy.is_sell log.

(** The position as [evaluate_orders] tells it: long while holdings
    are positive, flat otherwise. *)
Inductive position : Type := FLAT | LONG.

Definition position_of (s : MicroStrategy.t) : position :=
  if Qltb 0 (MicroStrategy.btc_holdings s) then LONG else FLAT.

(** Two strategy objects with the same account: only [data] may
    differ. *)
Definition same_account (a b : MicroStrategy.t) : Prop :=
  MicroStrategy.balance a = MicroStrategy.balance b
  /\ MicroStrategy.btc_holdings a = MicroStrategy.btc_holdings b
  /\ MicroStrategy.last_buy_price a = MicroStrategy.last_buy_price b
  /\ MicroStrategy.trade_amount a = MicroStrategy.trade_amount b
  /\ MicroStrategy.fee a = MicroStrategy.fee b.

(** The ten indicator columns, and the cell of a row in each. *)
Inductive indicator : Type :=
| Col_fastMA
| Col_slowMA
| Col_RSI
| Col_MACD
| Col_MACD_signal
| Col_upper_band
| Col_middle_band
| Col_lower_band
| Col_stoch_k
| Col_stoch_d.

Definition column (ind : indicator) (cols : MicroStrategy.columns)
    : list fnum :=
  match ind with
  | Col_fastMA => MicroStrategy.c_fastMA cols
  | Col_slowMA => MicroStrategy.c_slowMA cols
  | Col_RSI => MicroStrategy.c_RSI cols
  | Col_MACD => MicroStrategy.c_MACD cols
  | Col_MACD_signal => MicroStrategy.c_MACD_signal cols
  | Col_upper_band => MicroStrategy.c_upper_band cols
  | Col_middle_band => MicroStrategy.c_middle_band cols
  | Col_lower_band => MicroStrategy.c_lower_band cols
  | Col_stoch_k => MicroStrategy.c_stoch_k cols
  | Col_stoch_d => MicroStrategy.c_stoch_d cols
  end.

Definition cell (ind : indicator) (r : MicroStrategy.row) : fnum :=
  match ind with
  | Col_fastMA => MicroStrategy.fastMA r
  | Col_slowMA => MicroStrategy.slowMA r
  | Col_RSI => MicroStrategy.RSI r
  | Col_MACD => MicroStrategy.MACD r
  | Col_MACD_signal => MicroStrategy.MACD_signal r
  | Col_upper_band => MicroStrategy.upper_band r
  | Col_middle_band => MicroStrategy.middle_band r
  | Col_lower_band => MicroStrategy.lower_band r
  | Col_stoch_k => MicroStrategy.stoch_k r
  | Col_stoch_d => MicroStrategy.stoch_d r
  end.

(** What two roundings to double precision can move a product by,
    relative to its value: a bound on (1 + 2^-53)^2 - 1. *)
Definition rounding : Q := 1 # 2251799813685248.

(** Two rows with the same close and the same ten indicator cells. *)
Definition same_cells (r r' : MicroStrategy.row) : Prop :=
  MicroStrategy.close r' = MicroStrategy.close r
  /\ MicroStrategy.fastMA r' = MicroStrategy.fastMA r
  /\ MicroStrategy.slowMA r' = MicroStrategy.slowMA r
  /\ MicroStrategy.RSI r' = MicroStrategy.RSI r
  /\ MicroStrategy.MACD r' = MicroStrategy.MACD r
  /\ MicroStrategy.MACD_signal r' = MicroStrategy.MACD_signal r
  /\ MicroStrategy.upper_band r' = MicroStrategy.upper_band r
  /\ MicroStrategy.middle_band r' = MicroStrategy.middle_band r
  /\ MicroStrategy.lower_band r' = MicroStrategy.lower_band r
  /\ MicroStrategy.stoch_k r' = MicroStrategy.stoch_k r
  /\ MicroStrategy.stoch_d r' = MicroStrategy.stoch_d r.

(** Timestamps in strictly growing order: every row is earlier than all
    the rows after it. *)
Fixpoint increasing (ts : list Z) : Prop :=
  match ts with
  | [] => True
  | t :: rest => Forall (Z.lt t) rest /\ increasing rest
  end.

(** What holds of the sessions grouped from the files seen so far: the
    keys are distinct, a session holds seen files of its own time only,
    and every seen file with a time is in the session of that time. *)
Definition grouped (seen : list Cleanup.file)
    (sessions : list Cleanup.session) : Prop :=
  NoDup (map fst sessions)
  /\ (forall key files f, In (key, files) sessions -> In f files ->
                          Cleanup.stamp f = Some key /\ In f seen)
  /\ (forall f ts, In f seen -> Cleanup.stamp f = Some ts ->
                   exists files, In (ts, files) sessions /\ In f files).

(** A session is newer than another one. *)
Definition newer (a b : Cleanup.session) : Prop := (fst b < fst a)%Z.

End Spec.

(** ** Concrete rows and objects used to run the code *)

Module Scenario.

(** A row at close [c] on which only the moving-average entry
    condition holds: fast average 12 above slow average 8, oscillator
    at 40, and no bearish condition. *)
Definition entry_row (c : Q) : MicroStrategy.row :=
  MicroStrategy.mkRow c (Some 12) (Some 8) (Some 40) (Some 0) (Some 0)
    (Some (c * 2)) (Some c) (Some (c / 2)) (Some 50) (Some 50) false false.

(** A row at close 100 on which the momentum line, -27.5, is 1.1 times
    its signal line, -25: the product the code compares it with is the
    double -27.500000000000004, just below. *)
Definition momentum_row : MicroStrategy.row :=
  MicroStrategy.mkRow 100 (Some 8) (Some 12) (Some 54) (Some (-27.5))
    (Some (-25)) (Some 200) (Some 100) (Some 50) (Some 50) (Some 50)
    false false.

(** A row without oscillator, stochastic and band cells, closing at
    102.49999999999999, the double that 100 * 1.025 gives. *)
Definition bare_row : MicroStrategy.row :=
  MicroStrategy.mkRow (7212796278210559 # 70368744177664)
    (Some 12) (Some 8) NaN (Some 1) (Some 0) NaN NaN (Some 200) NaN
    (Some 50) false false.



(** A fresh strategy on 100 dollars at a fee of 0.1 percent. *)
Definition flat_100 : MicroStrategy.t :=
  MicroStrategy.init [] 100 0 0.001.

(** The same strategy after [evaluate_orders] bought at 100. *)
Definition long_at_100 : MicroStrategy.t :=
  fst (MicroStrategy.evaluate_orders
         (MicroStrategy.mkLatest 100 (Some true) (Some false)) flat_100).

(** What the exchange answers in paper mode on a configured balance
    [balance0] when the latest of 100 candles closes at [c]. *)
Definition quote (balance0 c : Q) : LiveTrader.env :=
  LiveTrader.mkEnv balance0 (Some (repeat (entry_row c) 99, entry_row c))
    true.

(** What a pass sees outside paper mode when the exchange reports a
    total of [balance] and the latest of 100 candles closes at [c]. *)
Definition fetched (balance c : Q) : LiveTrader.env :=
  Session.env
    (ExchangeHandler.mkAnswers (Some (Some balance)) (Some c) (Some 1%Z))
    (ExchangeHandler.mk true false 100)
    (Some (repeat (entry_row c) 99, entry_row c)) true.

(** A live trader started on 100 with a drawdown limit of 10 percent. *)
Definition live_limit_10 : LiveTrader.t :=
  LiveTrader.init 100 10 10 true 60 0.1 (repeat (entry_row 100) 100).

(** A live trader started on [balance0]: at most 10 trades a day, 5
    percent of daily drawdown, trading enabled, a pass every 60
    seconds, a fee of 0.1 percent. *)
Definition live (balance0 : Q) : LiveTrader.t :=
  LiveTrader.init balance0 10 5 true 60 0.1 (repeat (entry_row 100) 100).

Definition fake_money_game_100 : FakeMoneyGame.t :=
  FakeMoneyGame.init 100 (repeat (entry_row 100) 100).

Definition trading_game_100 : TradingGame.t :=
  TradingGame.mk 100 100 0
    (MicroStrategy.init (repeat (entry_row 100) 100) 100 0 0.001) [].

(** One-minute candles: minute [n] at a flat price [c]. *)
Definition minute (n : Z) (c : Q) : LiveData.candle :=
  LiveData.mkCandle (n * 60000) c c c c 1.

(** A history of the hundred minutes 0 to 99 at price 100. *)
Definition history : list LiveData.candle :=
  map (fun n => minute (Z.of_nat n) 100) (seq 0 100).

(** What [talib] returns for a frame of 101 candles when every column
    has a lookback of 21 rows. *)
Definition lookback_21 : MicroStrategy.columns :=
  let col := repeat NaN 21 ++ map Some (repeat 100 80) in
  MicroStrategy.mkColumns col col col col col col col col col col.

(** A results directory: three sessions, the oldest with two files, and
    one file without a session time. *)
Definition game_results : list Cleanup.file :=
  [Cleanup.mkFile 1 (Some 20240101120000%Z);
   Cleanup.mkFile 2 (Some 20240103120000%Z);
   Cleanup.mkFile 3 None;
   Cleanup.mkFile 4 (Some 20240102120000%Z);
   Cleanup.mkFile 5 (Some 20240101120000%Z)].

End Scenario.

(** * Properties *)

(** ** Arithmetic helpers *)

Lemma Qltb_lt (x y : Q) : Qltb x y = true <-> x < y.
Proof.
  unfold Qltb. rewrite negb_true_iff, <- not_true_iff_false, Qle_bool_iff.
  split; [apply Qnot_le_lt | apply Qlt_not_le].
Qed.

Lemma Qltb_ge (x y : Q) : Qltb x y = false <-> y <= x.
Proof.
  unfold Qltb. rewrite negb_false_iff. apply Qle_bool_iff.
Qed.

Lemma Qle_bool_gt (x y : Q) : Qle_bool x y = false <-> y < x.
Proof.
  rewrite <- not_true_iff_false, Qle_bool_iff.
  split; [apply Qnot_le_lt | apply Qlt_not_le].
Qed.

Lemma py_min_le_r (a b : Q) : py_min a b <= b.
Proof.
  unfold py_min. destruct (Qltb b a) eqn:E.
  - apply Qle_refl.
  - apply Qltb_ge in E. exact E.
Qed.

Lemma py_min_scale (b : Q) : 0 <= b -> py_min (b * 0.95) b == b * 0.95.
Proof.
  intros Hb. unfold py_min. destruct (Qltb b (b * 0.95)) eqn:E.
  - apply Qltb_lt in E. lra.
  - reflexivity.
Qed.

Lemma py_min_nonneg (b : Q) : 0 <= b -> 0 <= py_min (b * 0.95) b.
Proof.
  intros Hb. rewrite py_min_scale by exact Hb. lra.
Qed.

Lemma py_max_ge_l (a b : Q) : a <= py_max a b.
Proof.
  unfold py_max. destruct (Qltb a b) eqn:E.
  - apply Qltb_lt in E. lra.
  - apply Qle_refl.
Qed.


(** Turn the boolean tests of the code into facts on [Q]. *)
Ltac to_Q :=
  repeat match goal with
    | H : Qltb _ _ = true |- _ => apply Qltb_lt in H
    | H : Qltb _ _ = false |- _ => apply Qltb_ge in H
    | H : Qle_bool _ _ = true |- _ => apply Qle_bool_iff in H
    | H : Qle_bool _ _ = false |- _ => apply Qle_bool_gt in H
    | H : _ || _ = false |- _ => apply orb_false_iff in H; destruct H
    | H : _ && _ = true |- _ => apply andb_true_iff in H; destruct H
    end.

(** ** Rolling windows of at least one row *)

Lemma rolling_mean_window (w : nat) (xs : list Q) :
  (0 < w)%nat ->
  Pandas.rolling_mean w xs =
    map (fun i =>
           if Nat.ltb (S i) w then None
           else Some (Pandas.sum (firstn w (skipn (S i - w) xs))
                      / inject_Z (Z.of_nat w)))
        (seq 0 (length xs)).
Proof.
  intros Hw. unfold Pandas.rolling_mean. apply map_ext. intros i.
  destruct (Nat.eqb_spec w 0); [lia|]. rewrite orb_false_r. reflexivity.
Qed.

Lemma rolling_mean_na_window (w : nat) (col : list fnum) :
  (0 < w)%nat ->
  Pandas.rolling_mean_na w col =
    map (fun i =>
           if Nat.ltb (S i) w then None
           else
             match Pandas.cells (firstn w (skipn (S i - w) col)) with
             | Some vals => Some (Pandas.sum vals / inject_Z (Z.of_nat w))
             | None => None
             end)
        (seq 0 (length col)).
Proof.
  intros Hw. unfold Pandas.rolling_mean_na. apply map_ext. intros i.
  destruct (Nat.eqb_spec w 0); [lia|]. rewrite orb_false_r. reflexivity.
Qed.

(** ** The guards of [buy_position] and [sell_position] *)

Section Guards.

Import MicroStrategy.

Variables (price : Q) (s : t).

Lemma buy_position_rejected :
  balance s <= 0 \/ price <= 0 ->
  buy_position price s = (s, [Warning_cannot_buy (balance s) price]).
Proof.
  intros H. unfold buy_position.
  destruct (Qle_bool (balance s) 0 || Qle_bool price 0) eqn:E; [reflexivity|].
  to_Q. lra.
Qed.

Lemma buy_position_committed :
  0 < balance s -> 0 < price ->
  buy_position price s =
    (mk (data s) (balance s - trade_amount s)
        (btc_holdings s + trade_amount s / price * (1 - fee s))
        (trade_amount s) (fee s) price,
     [Info_buy (trade_amount s / price * (1 - fee s)) price
               (balance s - trade_amount s)]).
Proof.
  intros Hb Hp. unfold buy_position.
  destruct (Qle_bool (balance s) 0 || Qle_bool price 0) eqn:E.
  - apply orb_true_iff in E. destruct E as [E|E]; to_Q; lra.
  - reflexivity.
Qed.

Lemma sell_position_rejected :
  btc_holdings s <= 0 \/ price <= 0 ->
  sell_position price s = (s, [Warning_cannot_sell (btc_holdings s) price]).
Proof.
  intros H. unfold sell_position.
  destruct (Qle_bool (btc_holdings s) 0 || Qle_bool price 0) eqn:E;
    [reflexivity|].
  to_Q. lra.
Qed.

Lemma sell_position_committed :
  0 < btc_holdings s -> 0 < price ->
  fst (sell_position price s) =
    mk (data s) (balance s + btc_holdings s * price * (1 - fee s)) 0
       (trade_amount s) (fee s) (last_buy_price s)
  /\ Spec.orders (snd (sell_position price s)) =
       [Info_sell (btc_holdings s) price
                  (balance s + btc_holdings s * price * (1 - fee s))].
Proof.
  intros Hh Hp. unfold sell_position.
  destruct (Qle_bool (btc_holdings s) 0 || Qle_bool price 0) eqn:E.
  - apply orb_true_iff in E. destruct E as [E|E]; to_Q; lra.
  - cbn [fst snd]. split; [reflexivity|].
    destruct (Qltb 0 (last_buy_price s)); reflexivity.
Qed.

End Guards.

(** ** What one order logs *)

Section Logs.

Import MicroStrategy.

Variables (price : Q) (s : t).

Lemma sell_position_log :
  Spec.bought (snd (sell_position price s)) = false
  /\ (length (Spec.orders (snd (sell_position price s))) <= 1)%nat.
Proof.
  unfold sell_position.
  destruct (Qle_bool (btc_holdings s) 0 || Qle_bool price 0).
  - cbn. split; [reflexivity | lia].
  - destruct (Qltb 0 (last_buy_price s)); cbn; split;
      try reflexivity; lia.
Qed.

Lemma buy_position_log :
  Spec.sold (snd (buy_position price s)) = false
  /\ (length (Spec.orders (snd (buy_position price s))) <= 1)%nat.
Proof.
  unfold buy_position.
  destruct (Qle_bool (balance s) 0 || Qle_bool price 0);
    cbn; split; try reflexivity; lia.
Qed.

Lemma log_then_notice (e : event) (r : t * list event) :
  is_order e = false ->
  Spec.orders (snd (log_then e r)) = Spec.orders (snd r)
  /\ Spec.bought (snd (log_then e r)) = Spec.bought (snd r)
  /\ Spec.sold (snd (log_then e r)) = Spec.sold (snd r).
Proof.
  intros He. unfold log_then, Spec.orders, Spec.bought, Spec.sold.
  cbn [snd filter existsb]. rewrite He.
  destruct e; try discriminate He; cbn; auto.
Qed.

End Logs.

(** ** Claims about [buy_position], [sell_position], [evaluate_orders] *)

Section Orders.

Import MicroStrategy.

(** C7.  A buy attempted with a balance that is zero or negative, or at
    a price that is zero or negative, and a sell attempted with no
    holdings, return the strategy object exactly as it was (balance,
    holdings, entry price and every other field) and log no executed
    order, only the warning. *)
Theorem rejected_order_changes_nothing (price : Q) (s : t) :
  (balance s <= 0 \/ price <= 0 ->
     fst (buy_position price s) = s
     /\ Spec.orders (snd (buy_position price s)) = [])
  /\ (btc_holdings s <= 0 ->
        fst (sell_position price s) = s
        /\ Spec.orders (snd (sell_position price s)) = []).
Proof.
  split; intros H.
  - rewrite buy_position_rejected by exact H. split; reflexivity.
  - rewrite sell_position_rejected by (left; exact H). split; reflexivity.
Qed.

Lemma rejected_order_changes_nothing_witness :
  let broke := set_balance 0 Scenario.flat_100 in
  (fst (buy_position 100 broke) = broke
   /\ Spec.orders (snd (buy_position 100 broke)) = [])
  /\ (fst (buy_position 0 Scenario.flat_100) = Scenario.flat_100
      /\ Spec.orders (snd (buy_position 0 Scenario.flat_100)) = [])
  /\ (fst (sell_position 100 Scenario.flat_100) = Scenario.flat_100
      /\ Spec.orders (snd (sell_position 100 Scenario.flat_100)) = []).
Proof.
  destruct (rejected_order_changes_nothing 100
              (set_balance 0 Scenario.flat_100)) as [Hno_cash _].
  destruct (rejected_order_changes_nothing 0 Scenario.flat_100)
    as [Hno_price _].
  destruct (rejected_order_changes_nothing 100 Scenario.flat_100)
    as [_ Hno_holdings].
  cbv zeta. split; [|split].
  - apply Hno_cash. left. vm_compute. discriminate.
  - apply Hno_price. right. vm_compute. discriminate.
  - apply Hno_holdings. vm_compute. discriminate.
Defined.

(** C10.  One call of [evaluate_orders] executes at most one order; it
    never logs both a sale and a purchase; while holdings are positive
    only the exit tests run, so no purchase is made, and a purchase is
    made only from the other branch, with no holdings. *)
Theorem evaluate_orders_one_order (lr : latest_row) (s : t) :
  let log := snd (evaluate_orders lr s) in
  (length (Spec.orders log) <= 1)%nat
  /\ (Spec.sold log && Spec.bought log = false)
  /\ (0 < btc_holdings s -> Spec.bought log = false)
  /\ (btc_holdings s <= 0 -> Spec.sold log = false).
Proof.
  cbv zeta. unfold evaluate_orders.
  set (s1 := set_trade_amount _ s).
  change (btc_holdings s1) with (btc_holdings s).
  destruct (Qltb 0 (btc_holdings s)) eqn:Eh.
  - assert (Hsell : forall p,
               (length (Spec.orders (snd (sell_position p s1))) <= 1)%nat
               /\ Spec.sold (snd (sell_position p s1))
                  && Spec.bought (snd (sell_position p s1)) = false
               /\ (0 < btc_holdings s ->
                   Spec.bought (snd (sell_position p s1)) = false)
               /\ (btc_holdings s <= 0 ->
                   Spec.sold (snd (sell_position p s1)) = false)).
    { intros p. destruct (sell_position_log p s1) as [Hb Hl].
      rewrite Hb, andb_false_r. to_Q. repeat split; auto. intros; lra. }
    repeat match goal with
           | |- context [if ?c then _ else _] => destruct c
           end;
      try match goal with
          | |- context [log_then ?e ?r] =>
              destruct (log_then_notice e r eq_refl) as (-> & -> & ->)
          end;
      try apply Hsell.
    all: cbn; repeat split; auto.
  - to_Q.
    destruct (Qle_bool 10 (balance s1) && get (lr_open_long lr) false).
    + destruct (buy_position_log (lr_close lr) s1) as [Hs Hl].
      rewrite Hs. cbn [andb]. repeat split; auto. intros; lra.
    + cbn. repeat split; auto.
Qed.

Lemma evaluate_orders_one_order_witness :
  let exit_row := mkLatest 102.5 (Some true) (Some true) in
  let entry := mkLatest 100 (Some true) (Some true) in
  Spec.bought (snd (evaluate_orders exit_row Scenario.long_at_100)) = false
  /\ Spec.sold (snd (evaluate_orders entry Scenario.flat_100)) = false.
Proof.
  destruct (evaluate_orders_one_order
              (mkLatest 102.5 (Some true) (Some true)) Scenario.long_at_100)
    as (_ & _ & Hlong & _).
  destruct (evaluate_orders_one_order
              (mkLatest 100 (Some true) (Some true)) Scenario.flat_100)
    as (_ & _ & _ & Hflat).
  cbv zeta. split.
  - apply Hlong. reflexivity.
  - apply Hflat. vm_compute. discriminate.
Defined.

(** C6.  From a flat state, with the entry signal set, a balance of at
    least 10 and a positive price, [evaluate_orders] commits a buy of
    95 percent of the cash: cash goes down by that trade amount,
    holdings go up by (trade amount / price) * (1 - fee), and the entry
    price recorded is the price of the fill. *)
Theorem flat_entry_buys_with_95_percent (lr : latest_row) (s : t) :
  btc_holdings s <= 0 ->
  get (lr_open_long lr) false = true ->
  10 <= balance s ->
  0 < lr_close lr ->
  let s' := fst (evaluate_orders lr s) in
  let amount := trade_amount s' in
  amount == balance s * 0.95
  /\ balance s' = balance s - amount
  /\ btc_holdings s' = btc_holdings s + amount / lr_close lr * (1 - fee s)
  /\ last_buy_price s' = lr_close lr
  /\ Spec.orders (snd (evaluate_orders lr s)) =
       [Info_buy (amount / lr_close lr * (1 - fee s)) (lr_close lr)
                 (balance s - amount)].
Proof.
  intros Hflat Hsig Hcash Hprice. cbv zeta. unfold evaluate_orders.
  set (s1 := set_trade_amount _ s).
  change (btc_holdings s1) with (btc_holdings s).
  change (balance s1) with (balance s).
  apply Qltb_ge in Hflat. rewrite Hflat.
  apply Qle_bool_iff in Hcash. rewrite Hcash, Hsig. cbn [andb].
  apply Qle_bool_iff in Hcash.
  rewrite buy_position_committed by (cbn; lra).
  cbn. repeat split; try reflexivity.
  apply py_min_scale. lra.
Qed.

Lemma flat_entry_buys_with_95_percent_witness :
  let lr := mkLatest 100 (Some true) (Some false) in
  let s' := fst (evaluate_orders lr Scenario.flat_100) in
  let amount := trade_amount s' in
  amount == balance Scenario.flat_100 * 0.95
  /\ balance s' = balance Scenario.flat_100 - amount
  /\ btc_holdings s' =
       btc_holdings Scenario.flat_100
       + amount / lr_close lr * (1 - fee Scenario.flat_100)
  /\ last_buy_price s' = lr_close lr
  /\ Spec.orders (snd (evaluate_orders lr Scenario.flat_100)) =
       [Info_buy (amount / lr_close lr * (1 - fee Scenario.flat_100))
                 (lr_close lr) (balance Scenario.flat_100 - amount)].
Proof.
  apply (flat_entry_buys_with_95_percent
           (mkLatest 100 (Some true) (Some false)) Scenario.flat_100).
  - vm_compute. discriminate.
  - reflexivity.
  - vm_compute. discriminate.
  - reflexivity.
Defined.

(** C2, amended.  While holdings are positive, an entry price is
    recorded and the close is positive, a close at or above
    entry * 1.025 or at or below entry * 0.985 makes [evaluate_orders]
    sell: holdings drop to zero, cash grows by exactly
    holdings * close * (1 - fee), and that one sale is logged. *)
Theorem take_profit_or_stop_loss_sells_all (lr : latest_row) (s : t) :
  0 < btc_holdings s ->
  0 < last_buy_price s ->
  0 < lr_close lr ->
  last_buy_price s * 1.025 <= lr_close lr
  \/ lr_close lr <= last_buy_price s * 0.985 ->
  let s' := fst (evaluate_orders lr s) in
  btc_holdings s' = 0
  /\ balance s' = balance s + btc_holdings s * lr_close lr * (1 - fee s)
  /\ Spec.orders (snd (evaluate_orders lr s)) =
       [Info_sell (btc_holdings s) (lr_close lr)
          (balance s + btc_holdings s * lr_close lr * (1 - fee s))].
Proof.
  intros Hh He Hp Hexit. cbv zeta. unfold evaluate_orders.
  set (s1 := set_trade_amount _ s).
  change (btc_holdings s1) with (btc_holdings s).
  change (last_buy_price s1) with (last_buy_price s).
  apply Qltb_lt in Hh, He. rewrite Hh, He. apply Qltb_lt in Hh, He.
  assert (Hsell : forall e, is_order e = false ->
            let r := log_then e (sell_position (lr_close lr) s1) in
            btc_holdings (fst r) = 0
            /\ balance (fst r) =
                 balance s + btc_holdings s * lr_close lr * (1 - fee s)
            /\ Spec.orders (snd r) =
                 [Info_sell (btc_holdings s) (lr_close lr)
                    (balance s + btc_holdings s * lr_close lr * (1 - fee s))]).
  { intros e Hn. cbv zeta.
    destruct (log_then_notice e (sell_position (lr_close lr) s1) Hn)
      as (-> & _ & _).
    destruct (sell_position_committed (lr_close lr) s1 Hh Hp) as [Hs Hl].
    unfold log_then. cbn [fst]. rewrite Hs, Hl. cbn. auto. }
  unfold take_profit_threshold, stop_loss_threshold.
  destruct (Qle_bool (last_buy_price s * 1.025) (lr_close lr)) eqn:Etp.
  - apply (Hsell (Info_take_profit (lr_close lr)) eq_refl).
  - destruct (Qle_bool (lr_close lr) (last_buy_price s * 0.985)) eqn:Esl.
    + apply (Hsell (Info_stop_loss (lr_close lr)) eq_refl).
    + to_Q. lra.
Qed.

Lemma take_profit_or_stop_loss_sells_all_witness :
  let lr := mkLatest 102.5 (Some false) (Some false) in
  let s := Scenario.long_at_100 in
  let s' := fst (evaluate_orders lr s) in
  btc_holdings s' = 0
  /\ balance s' = balance s + btc_holdings s * lr_close lr * (1 - fee s)
  /\ Spec.orders (snd (evaluate_orders lr s)) =
       [Info_sell (btc_holdings s) (lr_close lr)
          (balance s + btc_holdings s * lr_close lr * (1 - fee s))].
Proof.
  apply (take_profit_or_stop_loss_sells_all
           (mkLatest 102.5 (Some false) (Some false)) Scenario.long_at_100).
  - reflexivity.
  - reflexivity.
  - reflexivity.
  - left. vm_compute. discriminate.
Defined.

(** C2 as stated fails twice on the code.  After the take-profit sale
    of Scenario B (entry 100, close 102.5) the recorded entry price is
    still 100, not cleared; and with entry 100 and a close of 0, which is
    below entry * 0.985, the sale is refused and the holdings stay. *)
Lemma exit_keeps_entry_price_and_needs_positive_close :
  let s := Scenario.long_at_100 in
  (0 < btc_holdings s /\ last_buy_price s == 100)
  /\ (let lr := mkLatest 102.5 (Some false) (Some false) in
      last_buy_price s * 1.025 <= lr_close lr
      /\ Spec.sold (snd (evaluate_orders lr s)) = true
      /\ ~ last_buy_price (fst (evaluate_orders lr s)) == 0)
  /\ (let lr := mkLatest 0 (Some false) (Some false) in
      lr_close lr <= last_buy_price s * 0.985
      /\ Spec.sold (snd (evaluate_orders lr s)) = false
      /\ btc_holdings (fst (evaluate_orders lr s)) = btc_holdings s
      /\ balance (fst (evaluate_orders lr s)) = balance s).
Proof.
  cbv zeta. repeat split; try reflexivity; vm_compute; discriminate.
Qed.

End Orders.

(** ** The entry signal *)

Section Signals.

Import MicroStrategy.

Lemma last_snoc {A : Type} (l : list A) (x d : A) : last (l ++ [x]) d = x.
Proof.
  induction l as [|a l IH]; [reflexivity|].
  cbn [app]. destruct (l ++ [x]) eqn:E.
  - destruct l; discriminate E.
  - exact IH.
Qed.

Lemma latest_after_populate_signals (s : t) (window : list row)
    (latest : row) :
  last (data (populate_signals (set_data (window ++ [latest]) s))) latest
  = signal_row (last_buy_price s) latest.
Proof.
  unfold populate_signals, set_data. cbn [data last_buy_price].
  rewrite map_app. cbn [map]. apply last_snoc.
Qed.

(** C3.  For the latest candle of a frame whose indicator cells are all
    computed, [populate_signals] sets [open_long] exactly when one of
    the five conditions holds, the two products being the doubles that
    the code computes; and with fast average 12, slow average 8 and
    oscillator 40 it is set whatever the other cells are. *)
Theorem open_long_of_latest_candle (s : t) (window : list row)
    (latest : row) :
  let signal :=
    open_long
      (last (data (populate_signals (set_data (window ++ [latest]) s)))
            latest) in
  (forall fast slow osc mom momsig lower k d,
      fastMA latest = Some fast -> slowMA latest = Some slow ->
      RSI latest = Some osc ->
      MACD latest = Some mom -> MACD_signal latest = Some momsig ->
      lower_band latest = Some lower ->
      stoch_k latest = Some k -> stoch_d latest = Some d ->
      (signal = true <->
         (slow < fast /\ osc < 52)
         \/ (Float.mul momsig (Float.round 1.1) < mom /\ osc < 55)
         \/ (osc < 35 /\ momsig < mom)
         \/ (close latest < Float.mul lower (Float.round 1.01) /\ k < 30)
         \/ (k < 30 /\ d < k)))
  /\ (fastMA latest = Some 12 -> slowMA latest = Some 8 ->
      RSI latest = Some 40 -> signal = true).
Proof.
  cbv zeta. rewrite latest_after_populate_signals.
  cbn [signal_row open_long]. unfold open_long_rule. split.
  - intros fast slow osc mom momsig lower k d
      -> -> -> -> -> -> -> ->.
    unfold fgt, flt, fmul.
    rewrite !orb_true_iff, !andb_true_iff, !Qltb_lt. tauto.
  - intros -> -> ->. reflexivity.
Qed.

Lemma open_long_of_latest_candle_witness :
  (open_long
     (last (data (populate_signals
                    (set_data ([] ++ [Scenario.entry_row 100])
                       Scenario.flat_100)))
           (Scenario.entry_row 100)) = true)
  /\ (open_long
        (last (data (populate_signals
                       (set_data ([] ++ [Scenario.momentum_row])
                          Scenario.flat_100)))
              Scenario.momentum_row) = true).
Proof.
  split.
  - destruct (open_long_of_latest_candle Scenario.flat_100 []
                (Scenario.entry_row 100)) as [_ Hscenario].
    apply Hscenario; reflexivity.
  - destruct (open_long_of_latest_candle Scenario.flat_100 []
                Scenario.momentum_row) as [Hiff _].
    apply (Hiff 8 12 54 (-27.5) (-25) 50 50 50); try reflexivity.
    right. left. split; reflexivity.
Defined.

End Signals.

(** ** The fills of [populate_indicators] *)

Section Fills.

Import Pandas.

Lemma bfill_leading (n : nat) (v : Q) (rest : list fnum) :
  bfill (repeat NaN n ++ Some v :: rest)
  = repeat (Some v) n ++ Some v :: bfill rest.
Proof.
  unfold NaN. induction n as [|n IH]; [reflexivity|].
  cbn [repeat app bfill]. rewrite IH.
  destruct n; reflexivity.
Qed.

Lemma ffill_from_missing (n : nat) (v : Q) (rest : list fnum) :
  ffill_from None (repeat NaN n ++ Some v :: rest)
  = repeat NaN n ++ Some v :: ffill_from (Some v) rest.
Proof.
  unfold NaN. induction n as [|n IH]; [reflexivity|].
  cbn [repeat app ffill_from]. rewrite IH. reflexivity.
Qed.

Lemma ffill_from_defined (v : Q) (col : list fnum) :
  Forall is_defined (ffill_from (Some v) col).
Proof.
  revert v. induction col as [|x col IH]; intros v; [constructor|].
  cbn [ffill_from]. destruct x as [w|].
  - constructor; [exists w; reflexivity | apply IH].
  - constructor; [exists v; reflexivity | apply IH].
Qed.

Lemma bfill_defined (col : list fnum) :
  Forall is_defined col -> bfill col = col.
Proof.
  induction 1 as [|x col [v ->] _ IH]; [reflexivity|].
  cbn [bfill]. rewrite IH. reflexivity.
Qed.

Lemma fill_missing (n : nat) :
  bfill (repeat NaN n) = repeat NaN n
  /\ ffill (repeat NaN n) = repeat NaN n.
Proof.
  unfold ffill, NaN. induction n as [|n [IHb IHf]]; [split; reflexivity|].
  cbn [repeat bfill ffill_from]. rewrite IHb, IHf.
  split; [destruct n|]; reflexivity.
Qed.

Lemma nth_error_leading {A : Type} (n j : nat) (x : A) (rest : list A) :
  (j <= n)%nat -> nth_error (repeat x n ++ x :: rest) j = Some x.
Proof.
  revert j. induction n as [|n IH]; intros j Hj.
  - replace j with 0%nat by lia. reflexivity.
  - destruct j as [|j]; [reflexivity|]. cbn. apply IH. lia.
Qed.

(** A column whose first computed cell is [v], after [n] missing cells,
    once it is back-filled or forward- and then back-filled. *)
Lemma filled_column (n : nat) (v : Q) (rest : list fnum) :
  let raw := repeat NaN n ++ Some v :: rest in
  (forall j, (j <= n)%nat -> nth_error (bfill raw) j = Some (Some v))
  /\ (forall j, (j <= n)%nat ->
                nth_error (bfill (ffill raw)) j = Some (Some v))
  /\ Forall is_defined (bfill (ffill raw))
  /\ length (bfill (ffill raw)) = length raw
  /\ length (bfill raw) = length raw
  /\ (Forall is_defined rest -> Forall is_defined (bfill raw)).
Proof.
  cbv zeta. unfold ffill. rewrite ffill_from_missing, !bfill_leading.
  rewrite (bfill_defined _ (ffill_from_defined v rest)).
  assert (Hlead : forall tail, Forall is_defined tail ->
            Forall is_defined (repeat (Some v) n ++ Some v :: tail)).
  { intros tail Htail. apply Forall_app. split.
    - apply Forall_forall. intros x Hx. apply repeat_spec in Hx.
      exists v. exact Hx.
    - constructor; [exists v; reflexivity | exact Htail]. }
  split; [|split; [|split; [|split; [|split]]]].
  - intros j Hj. apply nth_error_leading, Hj.
  - intros j Hj. apply nth_error_leading, Hj.
  - apply Hlead, ffill_from_defined.
  - rewrite !length_app, !repeat_length. cbn [length]. f_equal. f_equal.
    clear. revert v. induction rest as [|x rest IH]; intros v;
      [reflexivity|].
    cbn [ffill_from length]. f_equal. destruct x; apply IH.
  - rewrite !length_app, !repeat_length. cbn [length]. f_equal. f_equal.
    clear. induction rest as [|x rest IH]; [reflexivity|].
    cbn [bfill]. destruct x; cbn [length]; f_equal; exact IH.
  - intros Hrest. rewrite (bfill_defined _ Hrest). apply Hlead, Hrest.
Qed.

Lemma defined_cell (col : list fnum) (i : nat) :
  Forall is_defined col -> (i < length col)%nat ->
  is_defined (nth i col NaN).
Proof.
  intros Hcol Hi. rewrite Forall_forall in Hcol.
  apply Hcol. apply nth_In, Hi.
Qed.


Lemma rows_with_indicators (cols : MicroStrategy.columns)
    (rows : list MicroStrategy.row) (a i : nat) (r : MicroStrategy.row) :
  nth_error
    (map (fun ir => MicroStrategy.with_indicators cols (fst ir) (snd ir))
         (combine (seq a (length rows)) rows)) i = Some r ->
  exists r0, nth_error rows i = Some r0
             /\ r = MicroStrategy.with_indicators cols (a + i) r0.
Proof.
  revert a i. induction rows as [|r0 rows IH]; intros a i H.
  - destruct i; discriminate H.
  - destruct i as [|i]; cbn [length seq combine map nth_error fst snd] in H.
    + injection H as <-. exists r0. split; [reflexivity|].
      rewrite Nat.add_0_r. reflexivity.
    + destruct (IH (S a) i H) as (r1 & Hr1 & ->).
      exists r1. split; [exact Hr1|].
      rewrite Nat.add_succ_r. reflexivity.
Qed.

Lemma column_filled (ind : Spec.indicator) (talib : MicroStrategy.columns) :
  Spec.column ind (MicroStrategy.fill_columns talib) =
    match ind with
    | Spec.Col_fastMA => bfill (Spec.column ind talib)
    | _ => bfill (ffill (Spec.column ind talib))
    end.
Proof. destruct ind; reflexivity. Qed.

(** The rows that [populate_signals] reads and writes after
    [populate_indicators]: each cell is the cell of the filled column in
    that row, and the signals are the rules on those cells. *)
Lemma rows_after_indicators (talib : MicroStrategy.columns)
    (s : MicroStrategy.t) (i : nat) (r : MicroStrategy.row) :
  nth_error
    (MicroStrategy.data
       (MicroStrategy.populate_signals
          (MicroStrategy.populate_indicators talib s))) i = Some r ->
  (i < length (MicroStrategy.data s))%nat
  /\ (forall ind,
        Spec.cell ind r =
          nth i (Spec.column ind (MicroStrategy.fill_columns talib)) NaN)
  /\ MicroStrategy.open_long r = MicroStrategy.open_long_rule r
  /\ MicroStrategy.close_long r =
       MicroStrategy.close_long_rule (MicroStrategy.last_buy_price s) r.
Proof.
  unfold MicroStrategy.populate_signals, MicroStrategy.populate_indicators,
    MicroStrategy.set_data.
  cbn [MicroStrategy.data MicroStrategy.last_buy_price].
  rewrite nth_error_map. intros H.
  destruct (nth_error _ i) as [r1|] eqn:E; [|discriminate H].
  cbn [option_map] in H. injection H as <-.
  destruct (rows_with_indicators _ _ 0 i r1 E) as (r0 & Hr0 & ->).
  split; [apply nth_error_Some; congruence|].
  split; [intros []; reflexivity|]. split; reflexivity.
Qed.


End Fills.

(** ** Windows shorter and longer than a lookback *)

Section Lookback.

Import Pandas.

Lemma map_seq_const {A : Type} (f : nat -> A) (c : A) (a k : nat) :
  (forall i, (a <= i < a + k)%nat -> f i = c) ->
  map f (seq a k) = repeat c k.
Proof.
  revert a. induction k as [|k IH]; intros a Hf; [reflexivity|].
  cbn [seq map repeat]. rewrite Hf by lia. f_equal.
  apply IH. intros i Hi. apply Hf. lia.
Qed.

Lemma SMA_short (data : list Q) (timeperiod : nat) :
  (length data < timeperiod)%nat ->
  Talib.SMA data timeperiod = repeat NaN (length data).
Proof.
  intros Hshort. unfold Talib.SMA. rewrite rolling_mean_window by lia.
  apply map_seq_const. intros i Hi.
  destruct (Nat.ltb_spec (S i) timeperiod); [reflexivity | lia].
Qed.

Lemma SMA_long (data : list Q) (timeperiod : nat) :
  (0 < timeperiod <= length data)%nat ->
  exists rest,
    Talib.SMA data timeperiod =
      repeat NaN (timeperiod - 1)
      ++ Some (sum (firstn timeperiod data)
               / inject_Z (Z.of_nat timeperiod)) :: rest.
Proof.
  intros Hlen. unfold Talib.SMA. rewrite rolling_mean_window by lia.
  replace (length data)
    with ((timeperiod - 1) + S (length data - timeperiod))%nat by lia.
  rewrite seq_app, map_app. cbn [seq map plus].
  rewrite (map_seq_const _ NaN).
  - destruct (Nat.ltb_spec (S (timeperiod - 1)) timeperiod); [lia|].
    replace (S (timeperiod - 1) - timeperiod)%nat with 0%nat by lia.
    cbn [skipn]. eexists. reflexivity.
  - intros i Hi.
    destruct (Nat.ltb_spec (S i) timeperiod); [reflexivity | lia].
Qed.



End Lookback.

(** ** The account along [evaluate_orders] and the game's recovery *)

Section Account.

Import MicroStrategy.

Variable s : t.
Hypothesis fee_range : 0 <= fee s <= 1.
Hypothesis cash : 0 <= balance s.
Hypothesis holdings : 0 <= btc_holdings s.

Lemma sell_position_account (price : Q) :
  let s' := fst (sell_position price s) in
  0 <= balance s' /\ 0 <= btc_holdings s' /\ fee s' = fee s.
Proof.
  cbv zeta. unfold sell_position.
  destruct (Qle_bool (btc_holdings s) 0 || Qle_bool price 0) eqn:E.
  - cbn. auto.
  - to_Q. cbn. repeat split; try lra.
    assert (0 <= btc_holdings s * price * (1 - fee s)); [|lra].
    apply Qmult_le_0_compat; [apply Qmult_le_0_compat|]; lra.
Qed.

Lemma buy_position_account (price : Q) :
  0 <= trade_amount s <= balance s ->
  let s' := fst (buy_position price s) in
  0 <= balance s' /\ 0 <= btc_holdings s' /\ fee s' = fee s.
Proof.
  intros Hamount. cbv zeta. unfold buy_position.
  destruct (Qle_bool (balance s) 0 || Qle_bool price 0) eqn:E.
  - cbn. auto.
  - to_Q. cbn. repeat split; try lra.
    assert (0 <= trade_amount s / price * (1 - fee s)); [|lra].
    apply Qmult_le_0_compat; [|lra].
    apply Qle_shift_div_l; lra.
Qed.

End Account.

Section AccountTicks.

Import MicroStrategy.

Lemma set_trade_amount_scaled (s : t) :
  0 <= balance s ->
  let s1 := set_trade_amount (py_min (balance s * 0.95) (balance s)) s in
  0 <= trade_amount s1 <= balance s1.
Proof.
  intros Hb. cbn. split.
  - apply py_min_nonneg, Hb.
  - apply py_min_le_r.
Qed.

(** Along [evaluate_orders], which sizes the trade on the current
    balance before it buys, cash and holdings never go negative. *)
Lemma evaluate_orders_account (lr : latest_row) (s : t) :
  0 <= fee s <= 1 -> 0 <= balance s -> 0 <= btc_holdings s ->
  let s' := fst (evaluate_orders lr s) in
  0 <= balance s' /\ 0 <= btc_holdings s' /\ fee s' = fee s.
Proof.
  intros Hf Hb Hh. cbv zeta. unfold evaluate_orders.
  set (s1 := set_trade_amount _ s).
  pose proof (set_trade_amount_scaled s Hb) as Hamount.
  cbv zeta in Hamount. fold s1 in Hamount.
  assert (Hsell : forall p,
             0 <= balance (fst (sell_position p s1))
             /\ 0 <= btc_holdings (fst (sell_position p s1))
             /\ fee (fst (sell_position p s1)) = fee s).
  { intros p. apply (sell_position_account s1); assumption. }
  repeat match goal with
         | |- context [if ?c then _ else _] => destruct c
         end;
    unfold log_then; cbn [fst];
    try apply Hsell;
    try (apply (buy_position_account s1); assumption);
    cbn; auto.
Qed.

Lemma run_ticks_account (ticks : list latest_row) (s : t) :
  0 <= fee s <= 1 -> 0 <= balance s -> 0 <= btc_holdings s ->
  let s' := fold_left (fun acc lr => fst (evaluate_orders lr acc)) ticks s in
  0 <= balance s' /\ 0 <= btc_holdings s'.
Proof.
  revert s. induction ticks as [|lr ticks IH]; intros s Hf Hb Hh.
  - cbn. auto.
  - cbn [fold_left].
    destruct (evaluate_orders_account lr s Hf Hb Hh) as (Hb' & Hh' & Hf').
    apply IH; [rewrite Hf'|..]; assumption.
Qed.


End AccountTicks.

(** ** The risk gate of the live loop *)

Section RiskGate.

Import LiveTrader.





Lemma loop_body_resumed (e : env) (lt : t) :
  check_risk_limits e lt = Some true ->
  loop_body e lt = Skipped lt
  \/ exists lt' log, loop_body e lt = Ticked lt' log.
Proof.
  intros H. unfold loop_body. rewrite H.
  destruct (price_data e) as [[window latest]|]; [|left; reflexivity].
  destruct (Qeq_bool (MicroStrategy.close latest) 0); [left; reflexivity|].
  right.
  repeat match goal with
         | |- context [if ?c then _ else _] => destruct c
         | |- context [let '(_, _) := ?p in _] => destruct p
         end; eexists; eexists; reflexivity.
Qed.






(** C4 as stated fails on the code at the limit itself.  Started on 100
    with a drawdown limit of 10 percent, a balance of 90 is a drawdown
    of exactly 10 percent; the code computes the change as
    -9.999999999999998, which is above -10, so the pass is no pause and
    the entry signal is bought. *)
Lemma drawdown_of_exactly_the_limit_is_no_pause :
  (90 / 100 - 1) * 100
    == - Qabs (max_daily_drawdown_percent Scenario.live_limit_10)
  /\ daily_change_pct (Scenario.fetched 90 100) Scenario.live_limit_10
     == - (5629499534213119 # 562949953421312)
  /\ check_risk_limits (Scenario.fetched 90 100) Scenario.live_limit_10
     = Some true
  /\ Spec.bought
       (snd (run_trading_loop [Scenario.fetched 90 100]
               Scenario.live_limit_10)) = true.
Proof.
  repeat split; vm_compute; reflexivity.
Qed.

End RiskGate.

(** ** Runs of the drivers *)

Section Runs.

Import MicroStrategy.

(** C1 fails on the live loop.  [LiveTrader] buys through
    [buy_position] without refreshing [trade_amount], which still holds
    95 percent of the starting balance: started on 100, after a buy at
    100 and a sale at 80, the next buy debits 95 from a cash balance of
    about 80.85 and leaves it negative. *)
Theorem live_trader_overdraws_cash :
  let envs :=
    [Scenario.quote 100 100; Scenario.quote 100 80; Scenario.quote 100 80] in
  let '(lt, running, log) :=
    LiveTrader.run_trading_loop envs (Scenario.live 100) in
  running = true
  /\ map is_buy (Spec.orders log) = [true; false; true]
  /\ trade_amount (LiveTrader.strategy lt) == 95
  /\ balance (LiveTrader.strategy lt) == -14.151924
  /\ balance (LiveTrader.strategy lt) < 0.
Proof.
  vm_compute. repeat split; reflexivity.
Qed.

(** C9 fails on the live loop.  Its [elif] is reached whenever no sale
    is made, also while holdings are positive: started on 1000, the
    first pass buys, and the second pass, on the same entry signal and
    with 50 left in cash, buys again on top of the open position. *)
Theorem live_trader_buys_while_long :
  let e := Scenario.quote 1000 100 in
  let first := LiveTrader.loop_body e (Scenario.live 1000) in
  let second := LiveTrader.loop_body e (LiveTrader.after first) in
  let held lt := btc_holdings (LiveTrader.strategy lt) in
  Spec.bought (LiveTrader.log_of first) = true
  /\ 0 < held (LiveTrader.after first)
  /\ Spec.bought (LiveTrader.log_of second) = true
  /\ held (LiveTrader.after first) < held (LiveTrader.after second).
Proof.
  vm_compute. repeat split; reflexivity.
Qed.

(** C5 fails on the base driver.  After the strategy bought on the first
    tick its cash is 5, below 95 percent of the starting 100, and its
    position is open; the recovery branch of [BaseTradingGame] then
    sells the game's own holdings, which are still 0, so nothing is
    sold and the position stays open, where [TradingGame] on the same
    two ticks sells everything at 103, three percent above entry. *)
Theorem base_driver_recovery_leaves_position_open :
  let window := repeat (Scenario.entry_row 100) 100 in
  let tick1 g := FakeMoneyGame.execute_game_logic 100 window
                   (Scenario.entry_row 100) g in
  let tick2 g := FakeMoneyGame.execute_game_logic 90
                   (window ++ [Scenario.entry_row 100])
                   (Scenario.entry_row 90) g in
  exists g1 log1 p1 g2 p2,
    tick1 Scenario.fake_money_game_100 = Some (g1, log1, p1)
    /\ tick2 g1 = Some (g2, [], p2)
    /\ Spec.bought log1 = true
    /\ balance (FakeMoneyGame.strategy g1)
       < FakeMoneyGame.starting_balance g1 * 0.95
    /\ 0 < btc_holdings (FakeMoneyGame.strategy g1)
    /\ btc_holdings (FakeMoneyGame.strategy g2)
       = btc_holdings (FakeMoneyGame.strategy g1)
    /\ FakeMoneyGame.btc_holdings g1 = 0.
Proof.
  cbv zeta. do 5 eexists.
  split; [vm_compute; reflexivity|].
  split; [vm_compute; reflexivity|].
  repeat split; vm_compute; reflexivity.
Qed.

(** The same two ticks in [TradingGame]: the second one sells the whole
    position at 103. *)
Lemma trading_game_recovery_sells_at_margin :
  let window := repeat (Scenario.entry_row 100) 100 in
  exists g1 log1 p1 g2 log2 p2,
    TradingGame.execute_game_logic 100 window (Scenario.entry_row 100)
      Scenario.trading_game_100 = Some (g1, log1, p1)
    /\ TradingGame.execute_game_logic 90
         (window ++ [Scenario.entry_row 100]) (Scenario.entry_row 90) g1
       = Some (g2, log2, p2)
    /\ map (fun e => match e with
                     | Info_sell _ price _ => Some price
                     | _ => None
                     end) (Spec.orders log2) = [Some 103.00]
    /\ TradingGame.btc_holdings g2 = 0.
Proof.
  cbv zeta. do 6 eexists.
  split; [vm_compute; reflexivity|].
  split; [vm_compute; reflexivity|].
  split; vm_compute; reflexivity.
Qed.

End Runs.

(** ** More on the signal rules *)

Section SignalRules.

Import MicroStrategy.

Lemma signal_row_twice (last_buy : Q) (r : row) :
  signal_row last_buy (signal_row last_buy r) = signal_row last_buy r.
Proof. reflexivity. Qed.

(** X1.  [populate_signals] writes the two signal columns and nothing
    else: every row keeps its close and its ten indicator cells, the
    account is untouched, the signals written are the two rules on the
    row's own cells and the recorded entry price, and a second run changes
    nothing. *)
Theorem populate_signals_idempotent (s : t) :
  populate_signals (populate_signals s) = populate_signals s
  /\ Spec.same_account (populate_signals s) s
  /\ Forall2 (fun r r' =>
                Spec.same_cells r r'
                /\ open_long r' = open_long_rule r
                /\ close_long r' = close_long_rule (last_buy_price s) r)
             (data s) (data (populate_signals s)).
Proof.
  unfold populate_signals, set_data. cbn [data last_buy_price balance
    btc_holdings trade_amount fee]. split; [|split].
  - f_equal. rewrite map_map. apply map_ext. intros r.
    apply signal_row_twice.
  - repeat split.
  - induction (data s) as [|r rows IH]; [constructor|].
    cbn [map]. constructor; [|exact IH].
    repeat split.
Qed.

(** X2.  A row whose oscillator and stochastic-%K cells are missing never
    raises the entry signal; when the upper and middle band cells are
    missing as well, the exit signal is off without a recorded entry
    price, and with one it is exactly the take-profit or stop-loss test
    on the close, against the two thresholds as doubles. *)
Theorem missing_cells_give_no_signal (last_buy : Q) (r : row) :
  RSI r = NaN -> stoch_k r = NaN ->
  open_long_rule r = false
  /\ (upper_band r = NaN -> middle_band r = NaN ->
      (last_buy <= 0 -> close_long_rule last_buy r = false)
      /\ (0 < last_buy ->
          (close_long_rule last_buy r = true <->
             Float.mul last_buy (Float.round 1.025) <= close r
             \/ close r <= Float.mul last_buy (Float.round 0.985)))).
Proof.
  intros Hrsi Hk. split.
  - unfold open_long_rule, fgt, flt. rewrite Hrsi, Hk.
    destruct (slowMA r), (fastMA r), (MACD r), (fmul (MACD_signal r) 1.1),
      (MACD_signal r), (fmul (lower_band r) 1.01), (stoch_d r);
      cbn [andb orb]; rewrite ?andb_false_r; reflexivity.
  - intros Hup Hmid.
    assert (Hbear : bearish_rule r = false).
    { unfold bearish_rule, fgt, flt, fmul. rewrite Hrsi, Hk, Hup, Hmid.
      destruct (slowMA r), (fastMA r), (MACD r), (MACD_signal r),
        (stoch_d r); cbn [andb orb]; rewrite ?andb_false_r; reflexivity. }
    unfold close_long_rule. rewrite Hbear. split.
    + intros Hlb. apply Qltb_ge in Hlb. rewrite Hlb. reflexivity.
    + intros Hlb. apply Qltb_lt in Hlb. rewrite Hlb.
      unfold take_profit_threshold, stop_loss_threshold.
      rewrite orb_false_r, orb_true_iff, !Qle_bool_iff. tauto.
Qed.

Lemma missing_cells_give_no_signal_witness :
  open_long_rule Scenario.bare_row = false
  /\ close_long_rule 0 Scenario.bare_row = false
  /\ close_long_rule 100 Scenario.bare_row = true.
Proof.
  destruct (missing_cells_give_no_signal 0 Scenario.bare_row
              eq_refl eq_refl) as [Hopen Hexit0].
  destruct (missing_cells_give_no_signal 100 Scenario.bare_row
              eq_refl eq_refl) as [_ Hexit100].
  split; [exact Hopen|]. split.
  - apply (Hexit0 eq_refl eq_refl). vm_compute. discriminate.
  - apply (Hexit100 eq_refl eq_refl); [reflexivity|].
    left. vm_compute. discriminate.
Defined.

End SignalRules.

(** ** More on [evaluate_orders] *)

Section OrderRules.

Import MicroStrategy.

Lemma sell_position_sold (price : Q) (s : t) :
  0 < btc_holdings s -> 0 < price ->
  Spec.sold (snd (sell_position price s)) = true.
Proof.
  intros Hh Hp. unfold sell_position.
  destruct (Qle_bool (btc_holdings s) 0 || Qle_bool price 0) eqn:E.
  - apply orb_true_iff in E. destruct E as [E|E]; to_Q; lra.
  - destruct (Qltb 0 (last_buy_price s)); reflexivity.
Qed.

(** What [evaluate_orders] does on an open position at a positive price:
    [fire] collects its three exit tests. *)
Lemma evaluate_orders_long (lr : latest_row) (s : t) :
  0 < btc_holdings s -> 0 < lr_close lr ->
  let entry :=
    if Qltb 0 (last_buy_price s) then last_buy_price s else lr_close lr in
  let fire :=
    Qle_bool (entry * 1.025) (lr_close lr)
    || Qle_bool (lr_close lr) (entry * 0.985)
    || get (lr_close_long lr) false in
  let amount := py_min (balance s * 0.95) (balance s) in
  Spec.sold (snd (evaluate_orders lr s)) = fire
  /\ fst (evaluate_orders lr s) =
       if fire then
         mk (data s) (balance s + btc_holdings s * lr_close lr * (1 - fee s))
            0 amount (fee s) (last_buy_price s)
       else set_trade_amount amount s.
Proof.
  intros Hh Hp. cbv zeta. unfold evaluate_orders.
  set (s1 := set_trade_amount _ s).
  change (btc_holdings s1) with (btc_holdings s).
  change (last_buy_price s1) with (last_buy_price s).
  pose proof Hh as Hh'. apply Qltb_lt in Hh'. rewrite Hh'.
  unfold take_profit_threshold, stop_loss_threshold.
  set (entry := if Qltb 0 (last_buy_price s) then _ else _).
  assert (Hsold : Spec.sold (snd (sell_position (lr_close lr) s1)) = true).
  { apply sell_position_sold; assumption. }
  assert (Hst : fst (sell_position (lr_close lr) s1) =
                mk (data s)
                   (balance s + btc_holdings s * lr_close lr * (1 - fee s))
                   0 (py_min (balance s * 0.95) (balance s)) (fee s)
                   (last_buy_price s)).
  { apply (sell_position_committed (lr_close lr) s1); assumption. }
  destruct (Qle_bool (entry * 1.025) (lr_close lr));
    [|destruct (Qle_bool (lr_close lr) (entry * 0.985));
      [|destruct (get (lr_close_long lr) false)]];
    cbn [orb]; unfold log_then; cbn [fst snd];
    try (split; [exact Hsold | exact Hst]).
  split; reflexivity.
Qed.

(** What [evaluate_orders] does from a flat position when every entry
    test passes. *)
Lemma evaluate_orders_flat (lr : latest_row) (s : t) :
  btc_holdings s <= 0 -> 10 <= balance s ->
  get (lr_open_long lr) false = true -> 0 < lr_close lr ->
  let amount := py_min (balance s * 0.95) (balance s) in
  evaluate_orders lr s =
    (mk (data s) (balance s - amount)
        (btc_holdings s + amount / lr_close lr * (1 - fee s))
        amount (fee s) (lr_close lr),
     [Info_buy (amount / lr_close lr * (1 - fee s)) (lr_close lr)
               (balance s - amount)]).
Proof.
  intros Hflat Hcash Hsig Hprice. cbv zeta. unfold evaluate_orders.
  set (s1 := set_trade_amount _ s).
  change (btc_holdings s1) with (btc_holdings s).
  change (balance s1) with (balance s).
  apply Qltb_ge in Hflat. rewrite Hflat.
  pose proof Hcash as Hcash'. apply Qle_bool_iff in Hcash'.
  rewrite Hcash', Hsig. cbn [andb].
  rewrite buy_position_committed by (cbn; lra). reflexivity.
Qed.

(** X3.  On an open position with a recorded entry price and at a
    positive close, [evaluate_orders] sells whenever the close is at or
    above entry * 1.025, or at or below entry * 0.985, or the row carries
    the exit signal; and it sells only then, up to the rounding of the two
    thresholds: without the exit signal nothing is sold while the close
    lies between entry * 0.985 and entry * 1.025 by more than one part in
    2^51.  Without a recorded entry price only the exit signal sells.  A
    sale empties the holdings and adds holdings * close * (1 - fee) to
    the cash; without a sale cash and holdings are untouched. *)
Theorem evaluate_orders_sells_when (lr : latest_row) (s : t) :
  0 < btc_holdings s -> 0 < lr_close lr ->
  let log := snd (evaluate_orders lr s) in
  let s' := fst (evaluate_orders lr s) in
  (0 < last_buy_price s ->
     (last_buy_price s * 1.025 <= lr_close lr
      \/ lr_close lr <= last_buy_price s * 0.985
      \/ get (lr_close_long lr) false = true ->
      Spec.sold log = true)
     /\ (Spec.sold log = true ->
          last_buy_price s * 1.025 * (1 - Spec.rounding) <= lr_close lr
          \/ lr_close lr <= last_buy_price s * 0.985 * (1 + Spec.rounding)
          \/ get (lr_close_long lr) false = true))
  /\ (last_buy_price s <= 0 ->
        (Spec.sold log = true <-> get (lr_close_long lr) false = true))
  /\ (Spec.sold log = true ->
        btc_holdings s' = 0
        /\ balance s' =
             balance s + btc_holdings s * lr_close lr * (1 - fee s))
  /\ (Spec.sold log = false ->
        btc_holdings s' = btc_holdings s /\ balance s' = balance s).
Proof.
  intros Hh Hp. cbv zeta.
  destruct (evaluate_orders_long lr s Hh Hp) as [Hsold Hst].
  cbv zeta in Hsold, Hst. rewrite Hsold, Hst.
  split; [|split; [|split]].
  - intros Hlb. pose proof Hlb as Hlb'. apply Qltb_lt in Hlb'.
    rewrite Hlb'. rewrite !orb_true_iff, !Qle_bool_iff.
    unfold Spec.rounding. split.
    + tauto.
    + intros [[Htp | Hsl] | Hsig]; [left; lra | right; left; lra |].
      right. right. exact Hsig.
  - intros Hlb. apply Qltb_ge in Hlb. rewrite Hlb.
    rewrite !orb_true_iff, !Qle_bool_iff. split.
    + intros [[Htp | Hsl] | Hsig]; [lra | lra | exact Hsig].
    + intros Hsig. right. exact Hsig.
  - intros ->. split; reflexivity.
  - intros ->. split; reflexivity.
Qed.

Lemma evaluate_orders_sells_when_witness :
  Spec.sold
    (snd (evaluate_orders (mkLatest 102.5 (Some true) (Some false))
            Scenario.long_at_100)) = true
  /\ btc_holdings
       (fst (evaluate_orders (mkLatest 102.5 (Some true) (Some false))
               Scenario.long_at_100)) = 0.
Proof.
  destruct (evaluate_orders_sells_when
              (mkLatest 102.5 (Some true) (Some false))
              Scenario.long_at_100)
    as (Hwhen & _ & Hsale & _); [reflexivity | reflexivity |].
  cbv zeta in *.
  assert (Hsold : Spec.sold
                    (snd (evaluate_orders
                            (mkLatest 102.5 (Some true) (Some false))
                            Scenario.long_at_100)) = true).
  { apply (Hwhen eq_refl). left. vm_compute. discriminate. }
  split; [exact Hsold | apply (Hsale Hsold)].
Defined.

(** X4.  [evaluate_orders] buys exactly when holdings are not positive,
    cash is at least 10, the row carries the entry signal and the close
    is positive; when it does not buy from a flat position, cash,
    holdings and entry price are untouched. *)
Theorem evaluate_orders_buys_iff (lr : latest_row) (s : t) :
  let log := snd (evaluate_orders lr s) in
  let s' := fst (evaluate_orders lr s) in
  (Spec.bought log = true <->
     btc_holdings s <= 0 /\ 10 <= balance s
     /\ get (lr_open_long lr) false = true /\ 0 < lr_close lr)
  /\ (btc_holdings s <= 0 -> Spec.bought log = false ->
        balance s' = balance s /\ btc_holdings s' = btc_holdings s
        /\ last_buy_price s' = last_buy_price s).
Proof.
  cbv zeta. unfold evaluate_orders.
  set (s1 := set_trade_amount _ s).
  change (btc_holdings s1) with (btc_holdings s).
  change (balance s1) with (balance s).
  destruct (Qltb 0 (btc_holdings s)) eqn:Eh.
  - assert (Hnone : forall r : t * list event,
               (r = sell_position (lr_close lr) s1
                \/ r = log_then (Info_take_profit (lr_close lr))
                         (sell_position (lr_close lr) s1)
                \/ r = log_then (Info_stop_loss (lr_close lr))
                         (sell_position (lr_close lr) s1)
                \/ r = (s1, [])) ->
               Spec.bought (snd r) = false).
    { intros r [-> | [-> | [-> | ->]]]; try reflexivity;
        try (destruct (log_then_notice (Info_take_profit (lr_close lr))
                         (sell_position (lr_close lr) s1) eq_refl)
               as (_ & -> & _));
        try (destruct (log_then_notice (Info_stop_loss (lr_close lr))
                         (sell_position (lr_close lr) s1) eq_refl)
               as (_ & -> & _));
        apply sell_position_log. }
    to_Q. split.
    + rewrite Hnone by
        (repeat match goal with
                | |- context [if ?c then _ else _] => destruct c
                end; tauto).
      split; [discriminate | intros [Hflat _]; lra].
    + intros Hflat. lra.
  - to_Q.
    destruct (Qle_bool 10 (balance s)) eqn:Ec;
      destruct (get (lr_open_long lr) false) eqn:Es; cbn [andb];
      try (cbn; to_Q; split;
           [split; [discriminate | intros (_ & H1 & H2 & _); lra || discriminate]
           | auto]).
    unfold buy_position.
    change (balance s1) with (balance s).
    destruct (Qle_bool (balance s) 0 || Qle_bool (lr_close lr) 0) eqn:Eg.
    + cbn. to_Q. apply orb_true_iff in Eg. split.
      * split; [discriminate|]. intros (_ & _ & _ & Hp).
        destruct Eg as [Eg|Eg]; to_Q; lra.
      * auto.
    + cbn. to_Q. split.
      * split; [intros _; repeat split; auto; lra | reflexivity].
      * intros _ Hb. discriminate Hb.
Qed.

Lemma evaluate_orders_buys_iff_witness :
  let poor := set_balance 9.99 Scenario.flat_100 in
  let lr := mkLatest 100 (Some true) (Some false) in
  balance (fst (evaluate_orders lr poor)) = balance poor
  /\ btc_holdings (fst (evaluate_orders lr poor)) = btc_holdings poor
  /\ last_buy_price (fst (evaluate_orders lr poor)) = last_buy_price poor.
Proof.
  destruct (evaluate_orders_buys_iff
              (mkLatest 100 (Some true) (Some false))
              (set_balance 9.99 Scenario.flat_100)) as [Hiff Hkeep].
  cbv zeta in *. apply Hkeep.
  - vm_compute. discriminate.
  - apply not_true_is_false. intros Hb. apply Hiff in Hb.
    destruct Hb as (_ & Hcash & _). apply Hcash. reflexivity.
Defined.

End OrderRules.

(** ** What a trade costs *)

Section TradeCosts.

Import MicroStrategy.

(** X5.  Valued at the price of the fill, a committed buy lowers cash plus
    holdings by exactly fee * trade amount, and a committed sale by
    exactly fee * holdings * price: the fee is the only loss of an
    order. *)
Theorem order_costs_the_fee (price : Q) (s : t) :
  0 < price ->
  (0 < balance s ->
     let s' := fst (buy_position price s) in
     balance s' + btc_holdings s' * price ==
       balance s + btc_holdings s * price - fee s * trade_amount s)
  /\ (0 < btc_holdings s ->
        let s' := fst (sell_position price s) in
        balance s' + btc_holdings s' * price ==
          balance s + btc_holdings s * price
          - fee s * (btc_holdings s * price)).
Proof.
  intros Hp. split.
  - intros Hb. cbv zeta. rewrite buy_position_committed by assumption.
    cbn [fst balance btc_holdings]. field. lra.
  - intros Hh. cbv zeta.
    destruct (sell_position_committed price s Hh Hp) as [-> _].
    cbn [balance btc_holdings]. ring.
Qed.

Lemma order_costs_the_fee_witness :
  let s := Scenario.flat_100 in
  let s' := fst (buy_position 100 s) in
  balance s' + btc_holdings s' * 100 ==
    balance s + btc_holdings s * 100 - fee s * trade_amount s.
Proof.
  destruct (order_costs_the_fee 100 Scenario.flat_100) as [Hbuy _];
    [reflexivity|].
  apply Hbuy. reflexivity.
Defined.

(** X6.  A round trip at one price: from a flat position with at least
    10 in cash, a tick that buys at [p] followed by a tick that sells on
    the exit signal at the same [p] ends flat with
    cash * (0.05 + 0.95 * (1 - fee)^2), which is never more than the
    cash it started from. *)
Theorem round_trip_at_one_price (lr1 lr2 : latest_row) (s : t) :
  btc_holdings s == 0 -> 10 <= balance s -> 0 <= fee s < 1 ->
  0 < lr_close lr1 -> lr_close lr2 = lr_close lr1 ->
  get (lr_open_long lr1) false = true ->
  get (lr_close_long lr2) false = true ->
  let s1 := fst (evaluate_orders lr1 s) in
  let s2 := fst (evaluate_orders lr2 s1) in
  0 < btc_holdings s1
  /\ btc_holdings s2 = 0
  /\ balance s2 ==
       balance s * (0.05 + 0.95 * ((1 - fee s) * (1 - fee s)))
  /\ balance s2 <= balance s.
Proof.
  intros Hflat Hcash Hfee Hp Hsame Hopen Hclose. cbv zeta.
  rewrite (evaluate_orders_flat lr1 s) by (try assumption; lra).
  cbn [fst].
  set (amount := py_min (balance s * 0.95) (balance s)).
  assert (Hamount : amount == balance s * 0.95).
  { apply py_min_scale. lra. }
  set (s1 := mk _ _ _ _ _ _).
  assert (Hbought : 0 < amount / lr_close lr1 * (1 - fee s)).
  { apply Qmult_lt_0_compat; [|lra].
    apply Qlt_shift_div_l; [assumption|]. rewrite Hamount. lra. }
  assert (Hh1 : 0 < btc_holdings s1).
  { cbn. rewrite Hflat. lra. }
  assert (Hp2 : 0 < lr_close lr2) by (rewrite Hsame; assumption).
  destruct (evaluate_orders_long lr2 s1 Hh1 Hp2) as [_ Hst].
  cbv zeta in Hst. rewrite Hclose, !orb_true_r in Hst. rewrite Hst.
  cbn [balance btc_holdings fee s1]. rewrite Hsame.
  assert (Hcashback :
            balance s - amount
            + (btc_holdings s + amount / lr_close lr1 * (1 - fee s))
              * lr_close lr1 * (1 - fee s)
            == balance s * (0.05 + 0.95 * ((1 - fee s) * (1 - fee s)))).
  { rewrite Hflat, Hamount. field. lra. }
  repeat split.
  - exact Hh1.
  - exact Hcashback.
  - rewrite Hcashback.
    assert ((1 - fee s) * (1 - fee s) <= 1) by nra.
    nra.
Qed.

Lemma round_trip_at_one_price_witness :
  let lr1 := mkLatest 100 (Some true) (Some false) in
  let lr2 := mkLatest 100 (Some false) (Some true) in
  let s2 :=
    fst (evaluate_orders lr2 (fst (evaluate_orders lr1 Scenario.flat_100))) in
  btc_holdings s2 = 0 /\ balance s2 <= balance Scenario.flat_100.
Proof.
  destruct (round_trip_at_one_price
              (mkLatest 100 (Some true) (Some false))
              (mkLatest 100 (Some false) (Some true)) Scenario.flat_100)
    as (_ & Hflat & _ & Hle);
    try reflexivity.
  - vm_compute. discriminate.
  - split; [vm_compute; discriminate | reflexivity].
  - split; assumption.
Defined.

(** X7.  Along any sequence of [evaluate_orders] ticks, for a fee between
    0 and 1, cash and holdings that start non-negative stay non-negative,
    and the fee of the object is never changed. *)
Theorem evaluate_orders_keeps_account_sound (ticks : list latest_row)
    (s : t) :
  0 <= fee s <= 1 -> 0 <= balance s -> 0 <= btc_holdings s ->
  let s' := fold_left (fun acc lr => fst (evaluate_orders lr acc)) ticks s in
  0 <= balance s' /\ 0 <= btc_holdings s' /\ fee s' = fee s.
Proof.
  revert s. induction ticks as [|lr ticks IH]; intros s Hf Hb Hh.
  - cbn. auto.
  - cbn [fold_left].
    destruct (evaluate_orders_account lr s Hf Hb Hh) as (Hb' & Hh' & Hf').
    rewrite <- Hf'. apply IH; [rewrite Hf'|..]; assumption.
Qed.

Lemma evaluate_orders_keeps_account_sound_witness :
  let ticks := [mkLatest 100 (Some true) (Some false);
                mkLatest 80 (Some true) (Some false);
                mkLatest 80 (Some true) (Some false)] in
  let s' := fold_left (fun acc lr => fst (evaluate_orders lr acc)) ticks
              Scenario.flat_100 in
  0 <= balance s' /\ 0 <= btc_holdings s' /\ fee s' = fee Scenario.flat_100.
Proof.
  apply (evaluate_orders_keeps_account_sound
           [mkLatest 100 (Some true) (Some false);
            mkLatest 80 (Some true) (Some false);
            mkLatest 80 (Some true) (Some false)] Scenario.flat_100).
  - split; vm_compute; discriminate.
  - vm_compute. discriminate.
  - vm_compute. discriminate.
Defined.

End TradeCosts.

(** ** The game drivers *)

Section Games.

Import MicroStrategy.

Lemma recovery_or_normal_account (btc_price starting : Q)
    (current_data : latest_row) (s : t) :
  0 <= fee s <= 1 -> 0 <= balance s -> 0 <= btc_holdings s ->
  let s' :=
    fst (TradingGame.recovery_or_normal btc_price current_data starting s) in
  0 <= balance s' /\ 0 <= btc_holdings s' /\ fee s' = fee s.
Proof.
  intros Hf Hb Hh. cbv zeta. unfold TradingGame.recovery_or_normal.
  destruct (Qltb (balance s) (starting * 0.95)).
  - destruct (Qltb 0 (btc_holdings s)).
    + apply sell_position_account; assumption.
    + destruct (Qle_bool 10 (balance s)); [|cbn; auto].
      apply (buy_position_account (set_trade_amount (balance s * 0.95) s));
        try assumption.
      cbn. lra.
  - apply evaluate_orders_account; assumption.
Qed.

(** X8.  A tick of [TradingGame] on a non-zero starting balance returns:
    it keeps cash and holdings non-negative (fee between 0 and 1), leaves
    the game's cash and holdings equal to the strategy's, and appends to
    the history exactly one entry, whose total is cash plus holdings
    times the price of the tick. *)
Theorem trading_game_tick_keeps_books (btc_price : Q) (window : list row)
    (latest : row) (g : TradingGame.t) :
  ~ TradingGame.starting_balance g == 0 ->
  0 <= fee (TradingGame.strategy g) <= 1 ->
  0 <= balance (TradingGame.strategy g) ->
  0 <= btc_holdings (TradingGame.strategy g) ->
  exists g' log pct,
    TradingGame.execute_game_logic btc_price window latest g
      = Some (g', log, pct)
    /\ 0 <= TradingGame.fake_money g' /\ 0 <= TradingGame.btc_holdings g'
    /\ TradingGame.fake_money g' = balance (TradingGame.strategy g')
    /\ TradingGame.btc_holdings g' = btc_holdings (TradingGame.strategy g')
    /\ fee (TradingGame.strategy g') = fee (TradingGame.strategy g)
    /\ TradingGame.balance_history g' =
         TradingGame.balance_history g
         ++ [(TradingGame.fake_money g', TradingGame.btc_holdings g',
              btc_price,
              TradingGame.fake_money g'
              + TradingGame.btc_holdings g' * btc_price)].
Proof.
  intros Hstart Hf Hb Hh. unfold TradingGame.execute_game_logic.
  set (st0 := populate_signals _).
  set (cd := mkLatest _ _ _).
  pose proof (recovery_or_normal_account btc_price
                (TradingGame.starting_balance g) cd st0 Hf Hb Hh) as Hacc.
  cbv zeta in Hacc.
  destruct (TradingGame.recovery_or_normal btc_price cd
              (TradingGame.starting_balance g) st0) as [st log].
  cbn [fst] in Hacc. destruct Hacc as (Hb' & Hh' & Hf').
  destruct (Qeq_bool (TradingGame.starting_balance g) 0) eqn:E.
  - apply Qeq_bool_iff in E. contradiction.
  - eexists. eexists. eexists. split; [reflexivity|].
    cbn. repeat split; auto.
Qed.

Lemma trading_game_tick_keeps_books_witness :
  exists g' log pct,
    TradingGame.execute_game_logic 100 (repeat (Scenario.entry_row 100) 100)
      (Scenario.entry_row 100) Scenario.trading_game_100
      = Some (g', log, pct)
    /\ 0 <= TradingGame.fake_money g'
    /\ TradingGame.fake_money g' = balance (TradingGame.strategy g').
Proof.
  destruct (trading_game_tick_keeps_books 100
              (repeat (Scenario.entry_row 100) 100)
              (Scenario.entry_row 100) Scenario.trading_game_100)
    as (g' & log & pct & Hrun & Hcash & _ & Hmirror & _).
  - vm_compute. discriminate.
  - split; vm_compute; discriminate.
  - vm_compute. discriminate.
  - vm_compute. discriminate.
  - exists g', log, pct. auto.
Defined.



End Games.

(** ** The simulated trades of [FakeMoneyGame] *)

Section FakeTrades.

Import FakeMoneyGame.



(** X11.  Buying an amount and selling it again at the same price through
    [execute_trade] restores the holdings and costs exactly twice the fee
    on amount * price. *)
Theorem execute_trade_round_trip (amount : Q) (g : t) :
  0 < amount ->
  amount * current_price g + amount * current_price g * fee g <= balance g ->
  let g1 := fst (execute_trade buy amount g) in
  let g2 := fst (execute_trade sell amount g1) in
  snd (execute_trade buy amount g) = true
  /\ snd (execute_trade sell amount g1) = true
  /\ btc_holdings g2 == btc_holdings g
  /\ balance g2 == balance g - 2 * fee g * (amount * current_price g).
Proof.
  intros Hpos Hfits. cbv zeta.
  apply Qle_bool_iff in Hfits.
  assert (Hnot : Qle_bool amount 0 = false) by (apply Qle_bool_gt, Hpos).
  destruct (execute_trade buy amount g) as [g1 ok1] eqn:Ebuy.
  unfold execute_trade in Ebuy. cbv zeta in Ebuy. rewrite Hfits in Ebuy.
  injection Ebuy as <- <-. cbn [fst snd].
  unfold execute_trade. cbv zeta. rewrite Hnot.
  cbn. repeat split; ring.
Qed.

Lemma execute_trade_round_trip_witness :
  let g := set_current_price 100 Scenario.fake_money_game_100 in
  let g2 :=
    fst (execute_trade sell (1 / 2) (fst (execute_trade buy (1 / 2) g))) in
  btc_holdings g2 == btc_holdings g
  /\ balance g2 == balance g - 2 * fee g * (1 / 2 * current_price g).
Proof.
  destruct (execute_trade_round_trip (1 / 2)
              (set_current_price 100 Scenario.fake_money_game_100))
    as (_ & _ & Hh & Hb).
  - reflexivity.
  - vm_compute. discriminate.
  - split; assumption.
Defined.

(** X12.  While the strategy's cash is at least 95 percent of the starting
    balance, a tick of the base driver leaves the game's own cash and
    holdings as they were, whatever the strategy traded inside
    [evaluate_orders]; the profit it returns is computed from those
    unchanged figures. *)
Theorem base_driver_normal_tick_keeps_game_account (btc_price : Q)
    (window : list MicroStrategy.row) (latest : MicroStrategy.row) (g : t) :
  ~ starting_balance g == 0 ->
  starting_balance g * 0.95 <= MicroStrategy.balance (strategy g) ->
  exists g' log pct,
    execute_game_logic btc_price window latest g = Some (g', log, pct)
    /\ balance g' = balance g
    /\ btc_holdings g' = btc_holdings g
    /\ pct =
         ((balance g + btc_holdings g * btc_price) / starting_balance g - 1)
         * 100.
Proof.
  intros Hstart Hnormal. unfold execute_game_logic, recovery_or_normal.
  cbn [strategy set_strategy set_current_price starting_balance].
  set (st0 := MicroStrategy.populate_signals _).
  change (MicroStrategy.balance st0)
    with (MicroStrategy.balance (strategy g)).
  apply Qltb_ge in Hnormal. rewrite Hnormal.
  destruct (MicroStrategy.evaluate_orders _ st0) as [st' log].
  cbn [starting_balance set_strategy set_current_price balance
       btc_holdings].
  destruct (Qeq_bool (starting_balance g) 0) eqn:E.
  - apply Qeq_bool_iff in E. contradiction.
  - eexists. eexists. eexists. split; [reflexivity|].
    cbn. repeat split.
Qed.

Lemma base_driver_normal_tick_keeps_game_account_witness :
  exists g' log pct,
    execute_game_logic 100 (repeat (Scenario.entry_row 100) 100)
      (Scenario.entry_row 100) Scenario.fake_money_game_100
      = Some (g', log, pct)
    /\ balance g' = balance Scenario.fake_money_game_100
    /\ btc_holdings g' = btc_holdings Scenario.fake_money_game_100.
Proof.
  destruct (base_driver_normal_tick_keeps_game_account 100
              (repeat (Scenario.entry_row 100) 100)
              (Scenario.entry_row 100) Scenario.fake_money_game_100)
    as (g' & log & pct & Hrun & Hb & Hh & _).
  - vm_compute. discriminate.
  - vm_compute. discriminate.
  - exists g', log, pct. auto.
Defined.

End FakeTrades.

(** ** The live loop over many passes *)

Section LiveRuns.

Import LiveTrader.

Lemma run_trading_loop_invariant (P : t -> Prop) :
  (forall e lt, P lt -> P (after (loop_body e lt))) ->
  forall envs lt, P lt -> P (fst (fst (run_trading_loop envs lt))).
Proof.
  intros Hstep. induction envs as [|e envs IH]; intros lt HP; [exact HP|].
  cbn [run_trading_loop]. pose proof (Hstep e lt HP) as Hnext.
  destruct (loop_body e lt) as [l | l | l log | l]; cbn [after] in *;
    try exact Hnext;
    specialize (IH l Hnext);
    destruct (run_trading_loop envs l) as [[lt' running] log'];
    exact IH.
Qed.

(** What a pass never touches, and by how much it moves the counter. *)
Lemma loop_body_frame (e : env) (lt : t) :
  let lt' := after (loop_body e lt) in
  start_balance lt' = start_balance lt
  /\ max_daily_trades lt' = max_daily_trades lt
  /\ max_daily_drawdown_percent lt' = max_daily_drawdown_percent lt
  /\ trading_enabled lt' = trading_enabled lt
  /\ (trades_today lt <= trades_today lt' <= trades_today lt + 1)%Z
  /\ (trades_today lt' <> trades_today lt ->
      (trades_today lt < max_daily_trades lt)%Z).
Proof.
  cbv zeta. unfold loop_body.
  destruct (check_risk_limits e lt) as [[|]|] eqn:Echeck;
    try (cbn [after]; repeat split; try reflexivity; lia).
  assert (Hroom : (trades_today lt < max_daily_trades lt)%Z).
  { unfold check_risk_limits in Echeck.
    destruct (max_daily_trades lt <=? trades_today lt)%Z eqn:En;
      [discriminate Echeck | apply Z.leb_gt in En; exact En]. }
  destruct (price_data e) as [[window latest]|];
    [|cbn [after]; repeat split; try reflexivity; lia].
  destruct (Qeq_bool (MicroStrategy.close latest) 0);
    [cbn [after]; repeat split; try reflexivity; lia|].
  unfold execute_sell, execute_buy.
  cbn [trading_enabled set_strategy strategy trades_today].
  repeat match goal with
         | |- context [if ?c then _ else _] => destruct c
         end;
    repeat match goal with
           | |- context [MicroStrategy.sell_position ?a ?b] =>
               destruct (MicroStrategy.sell_position a b)
           | |- context [MicroStrategy.buy_position ?a ?b] =>
               destruct (MicroStrategy.buy_position a b)
           end;
    cbn [after start_balance max_daily_trades max_daily_drawdown_percent
         trading_enabled trades_today set_trades_today set_strategy];
    repeat split; try reflexivity; lia.
Qed.

(** X13.  Over any run of the loop the day's trade counter never goes
    down and never passes [max_daily_trades], which itself is never
    changed. *)
Theorem trades_today_stays_under_cap (envs : list env) (lt : t) :
  (trades_today lt <= max_daily_trades lt)%Z ->
  let lt' := fst (fst (run_trading_loop envs lt)) in
  (trades_today lt <= trades_today lt' <= max_daily_trades lt)%Z
  /\ max_daily_trades lt' = max_daily_trades lt.
Proof.
  intros Hcap. cbv zeta.
  apply (run_trading_loop_invariant
           (fun l => (trades_today lt <= trades_today l
                      <= max_daily_trades lt)%Z
                     /\ max_daily_trades l = max_daily_trades lt)).
  - intros e l [Hrange Hmax].
    destruct (loop_body_frame e l) as (_ & Hmax' & _ & _ & Hstep & Hroom).
    cbv zeta in *. split; [|congruence].
    destruct (Z.eq_dec (trades_today (after (loop_body e l)))
                       (trades_today l)) as [Heq | Hne].
    + lia.
    + specialize (Hroom Hne). lia.
  - split; [lia | reflexivity].
Qed.

Lemma trades_today_stays_under_cap_witness :
  let envs := [Scenario.quote 1000 100; Scenario.quote 1000 100;
               Scenario.quote 1000 100] in
  let lt := Scenario.live 1000 in
  (trades_today (fst (fst (run_trading_loop envs lt)))
   <= max_daily_trades lt)%Z.
Proof.
  destruct (trades_today_stays_under_cap
              [Scenario.quote 1000 100; Scenario.quote 1000 100;
               Scenario.quote 1000 100] (Scenario.live 1000))
    as [[_ Hcap] _].
  - vm_compute. discriminate.
  - exact Hcap.
Defined.

Lemma loop_body_no_order (e : env) (lt : t) :
  trading_enabled lt = false \/ order_placed e = false ->
  log_of (loop_body e lt) = []
  /\ Spec.same_account (strategy (after (loop_body e lt))) (strategy lt)
  /\ trades_today (after (loop_body e lt)) = trades_today lt.
Proof.
  intros Hoff. unfold loop_body, Spec.same_account.
  destruct (check_risk_limits e lt) as [[|]|];
    try (cbn; repeat split; reflexivity).
  destruct (price_data e) as [[window latest]|];
    [|cbn; repeat split; reflexivity].
  destruct (Qeq_bool (MicroStrategy.close latest) 0);
    [cbn; repeat split; reflexivity|].
  unfold execute_sell, execute_buy.
  cbn [trading_enabled set_strategy strategy trades_today].
  destruct Hoff as [-> | Hno].
  - cbn [negb].
    repeat match goal with
           | |- context [if ?c then _ else _] => destruct c
           end; cbn; repeat split; reflexivity.
  - rewrite Hno.
    repeat match goal with
           | |- context [if ?c then _ else _] => destruct c
           end; cbn; repeat split; reflexivity.
Qed.

(** X14.  While trading is disabled, or while the exchange returns no
    order, no run of the loop logs an order, changes the strategy's cash,
    holdings, entry price or trade amount, or counts a trade. *)
Theorem no_order_no_change (envs : list env) (lt : t) :
  trading_enabled lt = false
  \/ Forall (fun e => order_placed e = false) envs ->
  let '(lt', _, log) := run_trading_loop envs lt in
  log = []
  /\ Spec.same_account (strategy lt') (strategy lt)
  /\ trades_today lt' = trades_today lt.
Proof.
  revert lt. induction envs as [|e envs IH]; intros lt Hoff.
  - cbn. unfold Spec.same_account. repeat split; reflexivity.
  - cbn [run_trading_loop].
    assert (Hhere : trading_enabled lt = false \/ order_placed e = false).
    { destruct Hoff as [H | H]; [left; exact H|].
      right. inversion H; assumption. }
    destruct (loop_body_no_order e lt Hhere) as (Hlog & Hacc & Hn).
    destruct (loop_body_frame e lt) as (_ & _ & _ & Hen & _).
    cbv zeta in Hen.
    assert (Hrest : trading_enabled (after (loop_body e lt)) = false
                    \/ Forall (fun e => order_placed e = false) envs).
    { destruct Hoff as [H | H]; [left; congruence|].
      right. inversion H; assumption. }
    specialize (IH _ Hrest).
    assert (Hjoin : forall l lt' (log' : list MicroStrategy.event),
               Spec.same_account (strategy l) (strategy lt) ->
               trades_today l = trades_today lt ->
               log' = []
               /\ Spec.same_account (strategy lt') (strategy l)
               /\ trades_today lt' = trades_today l ->
               [] ++ log' = []
               /\ Spec.same_account (strategy lt') (strategy lt)
               /\ trades_today lt' = trades_today lt).
    { intros l lt' log' Hl Hnl (-> & Hacc' & Hn').
      unfold Spec.same_account in *. cbn [app].
      intuition congruence. }
    destruct (loop_body e lt) as [l | l | l log | l]; cbn [after log_of] in *.
    + destruct (run_trading_loop envs l) as [[lt' running] log'].
      apply (Hjoin l); assumption.
    + destruct (run_trading_loop envs l) as [[lt' running] log'].
      apply (Hjoin l); assumption.
    + destruct (run_trading_loop envs l) as [[lt' running] log'].
      rewrite Hlog. apply (Hjoin l); assumption.
    + split; [reflexivity | split; assumption].
Qed.

Lemma no_order_no_change_witness :
  let lt :=
    LiveTrader.init 100 10 5 false 60 0.1 (repeat (Scenario.entry_row 100) 100)
  in
  let '(lt', _, log) :=
    run_trading_loop [Scenario.quote 100 100; Scenario.quote 100 80] lt in
  log = []
  /\ Spec.same_account (strategy lt') (strategy lt)
  /\ trades_today lt' = trades_today lt.
Proof.
  apply (no_order_no_change [Scenario.quote 100 100; Scenario.quote 100 80]
           (LiveTrader.init 100 10 5 false 60 0.1
              (repeat (Scenario.entry_row 100) 100))).
  left. reflexivity.
Defined.

Lemma loop_body_raised (e : env) (lt : t) :
  (forall l, loop_body e lt = Raised l ->
             l = lt /\ start_balance lt == 0
             /\ (trades_today lt < max_daily_trades lt)%Z)
  /\ (start_balance lt == 0 ->
      (trades_today lt < max_daily_trades lt)%Z ->
      loop_body e lt = Raised lt).
Proof.
  unfold loop_body, check_risk_limits.
  destruct (max_daily_trades lt <=? trades_today lt)%Z eqn:En.
  - apply Z.leb_le in En. split; [discriminate | lia].
  - apply Z.leb_gt in En.
    destruct (Qeq_bool (start_balance lt) 0) eqn:E.
    + apply Qeq_bool_iff in E. split; [|reflexivity].
      intros l [= <-]. auto.
    + apply Qeq_bool_neq in E. split; [|contradiction].
      intros l.
      destruct (Qle_bool _ _); [discriminate|].
      destruct (price_data e) as [[window latest]|]; [|discriminate].
      destruct (Qeq_bool (MicroStrategy.close latest) 0); [discriminate|].
      repeat match goal with
             | |- context [if ?c then _ else _] => destruct c
             | |- context [let '(_, _) := ?p in _] => destruct p
             end; discriminate.
Qed.

(** X15.  On a non-zero starting balance the risk check never raises, and
    the loop is still going after any number of passes.  A starting
    balance of zero makes the first risk check that reaches the drawdown
    test raise, and the run stops there without a trade. *)
Theorem loop_ends_only_on_zero_start_balance (envs : list env) (lt : t) :
  (~ start_balance lt == 0 ->
     snd (fst (run_trading_loop envs lt)) = true)
  /\ (start_balance lt == 0 ->
      (trades_today lt < max_daily_trades lt)%Z ->
      forall e, run_trading_loop (e :: envs) lt = (lt, false, [])).
Proof.
  split.
  - revert lt. induction envs as [|e envs IH]; intros lt Hstart;
      [reflexivity|].
    cbn [run_trading_loop].
    destruct (loop_body_frame e lt) as (Hsame & _). cbv zeta in Hsame.
    destruct (loop_body_raised e lt) as [Hraised _].
    destruct (loop_body e lt) as [l | l | l log | l] eqn:Ebody;
      cbn [after] in *;
      try (assert (Hl : ~ start_balance l == 0) by (rewrite Hsame; exact Hstart);
           specialize (IH l Hl);
           destruct (run_trading_loop envs l) as [[lt' running] log'];
           exact IH).
    destruct (Hraised l eq_refl) as (_ & Hzero & _). contradiction.
  - intros Hzero Hroom e. cbn [run_trading_loop].
    destruct (loop_body_raised e lt) as [_ Hraise].
    rewrite (Hraise Hzero Hroom). reflexivity.
Qed.

Lemma loop_ends_only_on_zero_start_balance_witness :
  snd (fst (run_trading_loop
              [Scenario.quote 100 100; Scenario.quote 100 80]
              (Scenario.live 100))) = true
  /\ run_trading_loop [Scenario.quote 0 100; Scenario.quote 0 100]
       (Scenario.live 0) = (Scenario.live 0, false, []).
Proof.
  split.
  - apply (loop_ends_only_on_zero_start_balance
             [Scenario.quote 100 100; Scenario.quote 100 80]
             (Scenario.live 100)).
    vm_compute. discriminate.
  - apply (loop_ends_only_on_zero_start_balance
             [Scenario.quote 0 100] (Scenario.live 0)); reflexivity.
Defined.

End LiveRuns.

(** ** The exchange handler and the start-up question *)

Section Exchange.

Import ExchangeHandler.

(** X16.  [place_market_buy] and [place_market_sell] create an order on
    the exchange exactly when trading is enabled and paper mode is off;
    otherwise they return a simulated or paper order, and with trading
    disabled they do not call the exchange at all. *)
Theorem real_orders_need_enabled_live_mode (a : answers) (amount : Q)
    (h : t) :
  let buy := place_market_buy a amount h in
  let sell := place_market_sell a amount h in
  (existsb is_create (snd buy) = true <->
     trading_enabled h = true /\ paper_trading h = false)
  /\ (existsb is_create (snd sell) = true <->
        trading_enabled h = true /\ paper_trading h = false)
  /\ (trading_enabled h = false ->
        buy = (Some (Simulation amount), [])
        /\ sell = (Some (Simulation amount), []))
  /\ (trading_enabled h = true -> paper_trading h = true ->
        buy = (Some (Paper_trade amount (paper_price a)), [Fetch_ticker])
        /\ sell = (Some (Paper_trade amount (paper_price a)),
                   [Fetch_ticker])).
Proof.
  cbv zeta. unfold place_market_buy, place_market_sell.
  destruct (trading_enabled h), (paper_trading h); cbn;
    repeat split; try discriminate; try reflexivity;
    try (intros [H1 H2]; discriminate); auto.
Qed.

Lemma real_orders_need_enabled_live_mode_witness :
  let h := mk false false 100 in
  let a := mkAnswers None None (Some 7%Z) in
  place_market_buy a 1 h = (Some (Simulation 1), [])
  /\ place_market_sell a 1 h = (Some (Simulation 1), []).
Proof.
  destruct (real_orders_need_enabled_live_mode
              (mkAnswers None None (Some 7%Z)) 1 (mk false false 100))
    as (_ & _ & Hoff & _).
  apply Hoff. reflexivity.
Defined.

(** X17.  A live trader whose starting balance could not be fetched ends
    its loop on the first pass without a trade: outside paper mode
    [get_balance] answers 0 when the exchange raises or does not list the
    currency, and a zero starting balance makes the first drawdown check
    raise. *)
Theorem failed_balance_fetch_ends_the_loop (a : answers) (h : t)
    (max_trades : Z) (max_drawdown interval fee_percentage : Q)
    (enabled : bool) (d : list MicroStrategy.row)
    (e : LiveTrader.env) (rest : list LiveTrader.env) :
  paper_trading h = false ->
  fetch_balance a = None \/ fetch_balance a = Some None ->
  (0 < max_trades)%Z ->
  let lt :=
    LiveTrader.init (fst (get_balance a h)) max_trades max_drawdown enabled
      interval fee_percentage d in
  fst (get_balance a h) = 0
  /\ LiveTrader.run_trading_loop (e :: rest) lt = (lt, false, []).
Proof.
  intros Hlive Hfail Hmax. cbv zeta.
  assert (Hzero : fst (get_balance a h) = 0).
  { unfold get_balance. rewrite Hlive.
    destruct Hfail as [-> | ->]; reflexivity. }
  split; [exact Hzero|]. rewrite Hzero.
  cbn [LiveTrader.run_trading_loop].
  unfold LiveTrader.loop_body, LiveTrader.check_risk_limits.
  cbn [LiveTrader.init LiveTrader.max_daily_trades LiveTrader.trades_today
       LiveTrader.start_balance].
  destruct (max_trades <=? 0)%Z eqn:E; [apply Z.leb_le in E; lia|].
  reflexivity.
Qed.

Lemma failed_balance_fetch_ends_the_loop_witness :
  let lt :=
    LiveTrader.init
      (fst (get_balance (mkAnswers None (Some 100) None)
              (mk true false 100)))
      10 5 true 60 0.1 (repeat (Scenario.entry_row 100) 100) in
  LiveTrader.run_trading_loop [Scenario.quote 100 100] lt = (lt, false, []).
Proof.
  apply (failed_balance_fetch_ends_the_loop
           (mkAnswers None (Some 100) None) (mk true false 100)
           10 5 60 0.1 true (repeat (Scenario.entry_row 100) 100)
           (Scenario.quote 100 100) []).
  - reflexivity.
  - left. reflexivity.
  - reflexivity.
Defined.

(** X18.  The start-up question never reaches the exchange handler, which
    keeps the flags of the configuration it was built from.  Nothing is
    asked or changed in paper mode, with trading disabled, or on the
    answer CONFIRM; any other answer turns the trader's own flag and the
    saved configuration to paper mode, while the handler, still live with
    trading enabled, goes on creating orders on the exchange. *)
Theorem confirmation_never_reaches_the_handler (cfg : Startup.config)
    (answer : String.string) :
  let st := Startup.init cfg answer in
  Startup.exchange st = Startup.exchange_handler cfg
  /\ (Startup.paper_trading_mode cfg = true
      \/ Startup.trading_enabled cfg = false
      \/ answer = Startup.CONFIRM ->
      st = Startup.mkStarted (Startup.paper_trading_mode cfg)
             (Startup.exchange_handler cfg) cfg false)
  /\ (Startup.paper_trading_mode cfg = false ->
      Startup.trading_enabled cfg = true ->
      answer <> Startup.CONFIRM ->
      Startup.paper_trading st = true
      /\ Startup.paper_trading_mode (Startup.held_config st) = true
      /\ Startup.saved st = true
      /\ paper_trading (Startup.exchange st) = false
      /\ forall a amount,
           snd (place_market_buy a amount (Startup.exchange st))
           = [Create_market_buy_order amount]).
Proof.
  cbv zeta. unfold Startup.init, Startup.display_warnings.
  cbn [Startup.paper_trading Startup.held_config Startup.exchange].
  destruct (Startup.paper_trading_mode cfg) eqn:Ep;
    destruct (Startup.trading_enabled cfg) eqn:Ee; cbn [negb andb].
  - repeat split; auto; discriminate.
  - repeat split; auto; discriminate.
  - destruct (String.eqb_spec answer Startup.CONFIRM) as [Heq | Hne];
      cbn [negb].
    + split; [reflexivity|]. split; [auto|]. intros _ _ Hne.
      contradiction.
    + split; [reflexivity|]. split.
      * intros [H | [H | H]]; [discriminate | discriminate | contradiction].
      * intros _ _ _. cbn. unfold Startup.exchange_handler, place_market_buy.
        rewrite Ep, Ee. cbn. repeat split; reflexivity.
  - repeat split; auto; discriminate.
Qed.

Lemma confirmation_never_reaches_the_handler_witness :
  let st := Startup.init (Startup.mkConfig false true 100) String.EmptyString in
  Startup.paper_trading st = true
  /\ paper_trading (Startup.exchange st) = false.
Proof.
  destruct (confirmation_never_reaches_the_handler
              (Startup.mkConfig false true 100) String.EmptyString)
    as (_ & _ & Hdeclined).
  destruct Hdeclined as (Hflag & _ & _ & Hhandler & _);
    [reflexivity | reflexivity | discriminate |].
  split; assumption.
Defined.

End Exchange.

(** ** The candle frame *)

Section Frame.

Import LiveData.

Lemma iloc_tail_snoc (n : nat) (base : list candle) (x : candle) :
  (n <= length base)%nat ->
  skipn n (base ++ [x]) = skipn n base ++ [x].
Proof.
  intros Hn. rewrite skipn_app.
  replace (n - length base)%nat with 0%nat by lia. reflexivity.
Qed.

(** The shape of the frame after an update on a fetched candle: the
    fetched candle after the rows kept from [base], which is the old
    frame, or the old frame without its last row when that row has the
    timestamp of the fetched candle. *)
Lemma update_price_data_shape (latest : candle) (more frame : list candle) :
  exists base dropped older,
    (base = frame
     /\ (frame = []
         \/ timestamp latest <> timestamp (last frame latest))
     \/ frame <> [] /\ base = removelast frame
        /\ timestamp latest = timestamp (last frame latest))
    /\ base = dropped ++ older
    /\ length older = Nat.min (length base) 299
    /\ update_price_data (latest :: more) frame
       = (older ++ [latest], Some (close latest)).
Proof.
  unfold update_price_data.
  set (same := match frame with [] => false | _ :: _ => _ end).
  set (base := if same then removelast frame else frame).
  assert (Hupdated : (if same then removelast frame ++ [latest]
                      else frame ++ [latest]) = base ++ [latest])
    by (unfold base; destruct same; reflexivity).
  rewrite Hupdated.
  assert (Hbase : base = frame
                  /\ (frame = []
                      \/ timestamp latest <> timestamp (last frame latest))
                  \/ frame <> [] /\ base = removelast frame
                     /\ timestamp latest = timestamp (last frame latest)).
  { unfold base, same. destruct frame as [|r frame']; [left; auto|].
    destruct (Z.eqb_spec (timestamp latest)
                (timestamp (last (r :: frame') latest))) as [Heq | Hne].
    - right. repeat split; [discriminate | exact Heq].
    - left. auto. }
  rewrite length_app. cbn [length]. unfold iloc_tail.
  rewrite length_app. cbn [length].
  destruct (Nat.ltb_spec 300 (length base + 1)) as [Hlong | Hshort].
  - exists base, (firstn (length base + 1 - 300) base),
      (skipn (length base + 1 - 300) base).
    rewrite iloc_tail_snoc by lia.
    rewrite last_snoc, firstn_skipn, length_skipn.
    repeat split; [exact Hbase | lia].
  - exists base, [], base. rewrite last_snoc.
    repeat split; [exact Hbase | lia].
Qed.

(** X19.  An update on a fetched candle returns that candle's close and
    leaves it as the last row; every other row is an old row, in the old
    order; the frame never exceeds 300 rows, grows by at most one row,
    and never shrinks below the smaller of its old length and 300.  An
    empty fetch changes nothing and returns no price. *)
Theorem update_price_data_frame (latest : candle)
    (more frame : list candle) :
  update_price_data [] frame = (frame, None)
  /\ exists dropped older,
       update_price_data (latest :: more) frame
       = (older ++ [latest], Some (close latest))
       /\ (frame = dropped ++ older
           \/ removelast frame = dropped ++ older)
       /\ (length (older ++ [latest]) <= 300)%nat
       /\ (length (older ++ [latest]) <= S (length frame))%nat
       /\ (Nat.min (length frame) 300 <= length (older ++ [latest]))%nat.
Proof.
  split; [reflexivity|].
  destruct (update_price_data_shape latest more frame)
    as (base & dropped & older & Hbase & Hsplit & Hlen & Hrun).
  exists dropped, older. rewrite length_app. cbn [length].
  destruct Hbase as [[-> _] | (Hne & -> & _)].
  - repeat split; [exact Hrun | left; exact Hsplit | lia..].
  - assert (Hl : length frame = S (length (removelast frame))).
    { rewrite (app_removelast_last latest Hne) at 1.
      rewrite length_app. cbn [length]. lia. }
    repeat split; [exact Hrun | right; exact Hsplit | lia..].
Qed.

Lemma increasing_app (a b : list Z) :
  Spec.increasing (a ++ b) <->
  Spec.increasing a /\ Spec.increasing b
  /\ Forall (fun x => Forall (Z.lt x) b) a.
Proof.
  induction a as [|x a IH]; cbn [app Spec.increasing].
  - split; [intros H; repeat split; auto | intros (_ & H & _); exact H].
  - rewrite IH, Forall_app. split.
    + intros ((Hxa & Hxb) & Ha & Hb & Hab). repeat split; auto.
    + intros ((Hxa & Ha) & Hb & Hab). inversion Hab; subst.
      repeat split; auto.
Qed.

Lemma increasing_le_snoc (rows : list candle) (x : candle) :
  Spec.increasing (map timestamp (rows ++ [x])) ->
  Forall (fun c => (timestamp c <= timestamp x)%Z) (rows ++ [x]).
Proof.
  intros Hsorted. rewrite map_app in Hsorted.
  apply increasing_app in Hsorted. destruct Hsorted as (_ & _ & Hlt).
  apply Forall_app. split.
  - rewrite Forall_map in Hlt. eapply Forall_impl; [|exact Hlt].
    cbv beta. intros c Hc. inversion Hc; subst. lia.
  - constructor; [lia | constructor].
Qed.

Lemma increasing_le_last (frame : list candle) (d : candle) :
  Spec.increasing (map timestamp frame) ->
  Forall (fun c => (timestamp c <= timestamp (last frame d))%Z) frame.
Proof.
  intros Hsorted. destruct frame as [|r frame']; [constructor|].
  assert (Hne : r :: frame' <> []) by discriminate.
  remember (r :: frame') as frame eqn:Hframe. clear Hframe r frame'.
  pose proof (app_removelast_last d Hne) as Hsplit.
  remember (last frame d) as x eqn:Hx. clear Hx.
  rewrite Hsplit in *. apply increasing_le_snoc, Hsorted.
Qed.

(** X20.  When the timestamps of the frame grow strictly and the fetched
    candle is not older than the last row, the timestamps of the updated
    frame grow strictly too: a candle of the same minute replaces the
    last row instead of being added twice. *)
Theorem update_price_data_keeps_order (latest : candle)
    (more frame : list candle) :
  Spec.increasing (map timestamp frame) ->
  (timestamp (last frame latest) <= timestamp latest)%Z ->
  Spec.increasing
    (map timestamp (fst (update_price_data (latest :: more) frame))).
Proof.
  intros Hsorted Hnew.
  destruct (update_price_data_shape latest more frame)
    as (base & dropped & older & Hbase & Hsplit & _ & ->).
  cbn [fst]. rewrite map_app. cbn [map].
  apply increasing_app. cbn [Spec.increasing].
  assert (Hgoal : Spec.increasing (map timestamp older)
                  /\ Forall (fun c => (timestamp c < timestamp latest)%Z)
                            older).
  { destruct Hbase as [[-> Hwhy] | (Hne & -> & Hsame)].
    - pose proof Hsorted as Hsorted'.
      rewrite Hsplit, map_app in Hsorted.
      apply increasing_app in Hsorted. destruct Hsorted as (_ & Hold & _).
      split; [exact Hold|].
      destruct Hwhy as [-> | Hdiff].
      + destruct dropped, older; try discriminate Hsplit. constructor.
      + pose proof (increasing_le_last frame latest Hsorted') as Hall.
        rewrite Hsplit in Hall at 1. apply Forall_app in Hall.
        destruct Hall as [_ Hall].
        eapply Forall_impl; [|exact Hall]. cbv beta. intros c Hc. lia.
    - pose proof (app_removelast_last latest Hne) as Hframe.
      rewrite Hframe, map_app in Hsorted.
      apply increasing_app in Hsorted.
      destruct Hsorted as (Hrl & _ & Hlt).
      rewrite Hsplit, map_app in Hrl. apply increasing_app in Hrl.
      destruct Hrl as (_ & Hold & _). split; [exact Hold|].
      rewrite Hsplit, map_app in Hlt. apply Forall_app in Hlt.
      destruct Hlt as [_ Hlt]. rewrite Forall_map in Hlt.
      eapply Forall_impl; [|exact Hlt]. cbv beta. intros c Hc.
      inversion Hc; subst. cbn [map] in *. lia. }
  destruct Hgoal as [Hold Hlt]. repeat split; auto.
  rewrite Forall_map. eapply Forall_impl; [|exact Hlt].
  cbv beta. intros c Hc. constructor; [exact Hc | constructor].
Qed.

Lemma update_price_data_keeps_order_witness :
  Spec.increasing
    (map timestamp
       (fst (update_price_data [Scenario.minute 2 101]
               [Scenario.minute 0 100; Scenario.minute 1 100;
                Scenario.minute 2 100]))).
Proof.
  apply (update_price_data_keeps_order (Scenario.minute 2 101) []
           [Scenario.minute 0 100; Scenario.minute 1 100;
            Scenario.minute 2 100]).
  - cbn. repeat constructor.
  - cbn. discriminate.
Defined.

Lemma update_price_data_length (fetched frame : list candle) :
  let frame' := fst (update_price_data fetched frame) in
  (Nat.min (length frame) 300 <= length frame'
   <= Nat.max (length frame) 300)%nat.
Proof.
  cbv zeta. destruct fetched as [|latest more]; [cbn; lia|].
  destruct (update_price_data_shape latest more frame)
    as (base & dropped & older & Hbase & _ & Hlen & ->).
  cbn [fst]. rewrite length_app. cbn [length].
  destruct Hbase as [[-> _] | (Hne & -> & _)]; [lia|].
  assert (Hl : length frame = S (length (removelast frame))).
  { rewrite (app_removelast_last latest Hne) at 1.
    rewrite length_app. cbn [length]. lia. }
  lia.
Qed.

Lemma updates_length (fetched : list (list candle)) (frame : list candle)
    (cap : nat) :
  (100 <= length frame <= Nat.max cap 300)%nat ->
  (100 <= length (updates fetched frame) <= Nat.max cap 300)%nat.
Proof.
  unfold updates. revert frame.
  induction fetched as [|f fetched IH]; intros frame Hlen; [exact Hlen|].
  cbn [fold_left]. apply IH.
  pose proof (update_price_data_length f frame) as Hstep.
  cbv zeta in Hstep. lia.
Qed.

(** X21.  A frame that [_initialize_price_data] accepted has at least 100
    candles, and keeps at least 100 through any series of updates; it
    never grows beyond the larger of 300 and its first length. *)
Theorem live_frame_stays_long (ohlcv frame : list candle)
    (fetched : list (list candle)) :
  initialize_price_data ohlcv = Some frame ->
  frame = ohlcv
  /\ (100 <= length (updates fetched frame)
      <= Nat.max (length ohlcv) 300)%nat.
Proof.
  unfold initialize_price_data.
  destruct (Nat.ltb_spec (length ohlcv) 100) as [Hshort | Hlong];
    [discriminate|].
  intros [= <-]. split; [reflexivity|].
  apply updates_length. lia.
Qed.

Lemma live_frame_stays_long_witness :
  (100 <= length (updates [[Scenario.minute 99 101]; [];
                           [Scenario.minute 100 102]] Scenario.history)
   <= Nat.max (length Scenario.history) 300)%nat.
Proof.
  apply (live_frame_stays_long Scenario.history Scenario.history
           [[Scenario.minute 99 101]; []; [Scenario.minute 100 102]]).
  reflexivity.
Defined.

(** X22.  The frame of the live trader always holds at least 100
    candles.  So whenever the columns that [talib] returns for it are a
    lookback of fewer than 100 missing cells followed by computed values,
    every row that [populate_signals] evaluates in the trading loop has
    all its ten indicator cells filled, after any number of updates. *)
Theorem live_frame_indicators_are_filled (ohlcv frame : list candle)
    (fetched : list (list candle)) (talib : MicroStrategy.columns)
    (s : MicroStrategy.t) (lookback : Spec.indicator -> nat)
    (computed : Spec.indicator -> list Q) :
  initialize_price_data ohlcv = Some frame ->
  (forall ind,
      Spec.column ind talib
      = repeat NaN (lookback ind) ++ map Some (computed ind)) ->
  (forall ind,
      length (Spec.column ind talib)
      = length (rows (updates fetched frame))) ->
  (forall ind, (lookback ind < 100)%nat) ->
  Forall (fun r => forall ind, is_defined (Spec.cell ind r))
    (MicroStrategy.data
       (MicroStrategy.populate_signals
          (MicroStrategy.populate_indicators talib
             (MicroStrategy.set_data (rows (updates fetched frame)) s)))).
Proof.
  intros Hinit Hshape Hlen Hlook.
  assert (Hlong : (100 <= length (rows (updates fetched frame)))%nat).
  { unfold rows. rewrite length_map.
    unfold initialize_price_data in Hinit.
    destruct (Nat.ltb_spec (length ohlcv) 100) as [Hshort | Hok];
      [discriminate|].
    injection Hinit as <-.
    apply (updates_length fetched ohlcv (length ohlcv)). lia. }
  apply Forall_forall. intros r Hr. apply In_nth_error in Hr.
  destruct Hr as [i Hi].
  destruct (rows_after_indicators talib _ i r Hi) as (Hlt & Hcell & _).
  cbn [MicroStrategy.data MicroStrategy.set_data] in Hlt.
  intros ind.
  assert (Hcol : Forall is_defined
                   (Pandas.bfill (Pandas.ffill (Spec.column ind talib)))
                 /\ Forall is_defined (Pandas.bfill (Spec.column ind talib))
                 /\ length (Pandas.bfill
                              (Pandas.ffill (Spec.column ind talib)))
                    = length (Spec.column ind talib)
                 /\ length (Pandas.bfill (Spec.column ind talib))
                    = length (Spec.column ind talib)).
  { pose proof (Hlen ind) as Hl. pose proof (Hlook ind) as Hk.
    rewrite (Hshape ind) in *.
    destruct (computed ind) as [|v vals].
    - rewrite length_app, repeat_length in Hl. cbn [map length] in Hl. lia.
    - cbn [map].
      destruct (filled_column (lookback ind) v (map Some vals))
        as (_ & _ & Hfb & Hlfb & Hlb & Hb).
      cbv zeta in Hfb, Hlfb, Hlb, Hb.
      repeat split; try assumption.
      apply Hb. apply Forall_forall. intros c Hc.
      apply in_map_iff in Hc. destruct Hc as (x & <- & _).
      exists x. reflexivity. }
  destruct Hcol as (Hfb & Hb & Hlfb & Hlb).
  rewrite Hcell, column_filled.
  destruct ind; apply defined_cell; try assumption;
    rewrite ?Hlfb, ?Hlb, Hlen; exact Hlt.
Qed.

Lemma live_frame_indicators_are_filled_witness :
  Forall (fun r => forall ind, is_defined (Spec.cell ind r))
    (MicroStrategy.data
       (MicroStrategy.populate_signals
          (MicroStrategy.populate_indicators Scenario.lookback_21
             (MicroStrategy.set_data
                (rows (updates [[Scenario.minute 100 102]]
                         Scenario.history))
                Scenario.flat_100)))).
Proof.
  apply (live_frame_indicators_are_filled Scenario.history
           Scenario.history [[Scenario.minute 100 102]]
           Scenario.lookback_21 Scenario.flat_100
           (fun _ => 21%nat) (fun _ => repeat 100 80)).
  - reflexivity.
  - intros []; reflexivity.
  - intros []; vm_compute; reflexivity.
  - intros _. lia.
Defined.

End Frame.

(** ** The polyfill indicators *)

Section Polyfill.

Import Pandas.

Lemma window_row_in {A : Type} (w k : nat) (l : list A) (x : A) :
  In x (firstn w (skipn k l)) -> In x l.
Proof.
  intros Hin.
  assert (Hskip : In x (skipn k l)).
  { rewrite <- (firstn_skipn w (skipn k l)). apply in_or_app. left.
    exact Hin. }
  rewrite <- (firstn_skipn k l). apply in_or_app. right. exact Hskip.
Qed.

Lemma sum_range (lo hi : Q) (vals : list Q) :
  Forall (fun x => lo <= x <= hi) vals ->
  lo * inject_Z (Z.of_nat (length vals)) <= sum vals
  /\ sum vals <= hi * inject_Z (Z.of_nat (length vals)).
Proof.
  induction 1 as [|x vals Hx _ IH].
  - cbn [sum length Z.of_nat]. change (inject_Z 0) with 0. lra.
  - cbn [sum length]. rewrite Nat2Z.inj_succ. unfold Z.succ.
    rewrite inject_Z_plus. change (inject_Z 1) with 1. lra.
Qed.

Lemma mean_range (lo hi : Q) (vals : list Q) :
  (0 < length vals)%nat ->
  Forall (fun x => lo <= x <= hi) vals ->
  lo <= sum vals / inject_Z (Z.of_nat (length vals)) <= hi.
Proof.
  intros Hlen Hvals. destruct (sum_range lo hi vals Hvals) as [Hlo Hhi].
  assert (Hn : 0 < inject_Z (Z.of_nat (length vals))).
  { change 0 with (inject_Z 0). rewrite <- Zlt_Qlt. lia. }
  split.
  - apply Qle_shift_div_l; assumption.
  - apply Qle_shift_div_r; assumption.
Qed.

Lemma window_length {A : Type} (w i : nat) (l : list A) :
  (w <= S i)%nat -> (i < length l)%nat ->
  length (firstn w (skipn (S i - w) l)) = w.
Proof.
  intros Hw Hi. rewrite length_firstn, length_skipn. lia.
Qed.

(** X23.  The polyfill moving average has one row for each price; row [i]
    is missing exactly while fewer than [timeperiod] prices are
    available, and a computed row lies within any bounds that hold for
    all the prices. *)
Theorem SMA_is_a_mean_of_the_prices (data : list Q) (timeperiod : nat)
    (lo hi : Q) :
  (0 < timeperiod)%nat ->
  Forall (fun x => lo <= x <= hi) data ->
  length (Talib.SMA data timeperiod) = length data
  /\ (forall i, (i < length data)%nat ->
        (nth_error (Talib.SMA data timeperiod) i = Some NaN
         <-> (S i < timeperiod)%nat))
  /\ Forall (fun c => forall v, c = Some v -> lo <= v <= hi)
            (Talib.SMA data timeperiod).
Proof.
  intros Hw Hdata. unfold Talib.SMA. rewrite rolling_mean_window by lia.
  repeat split.
  - rewrite length_map, length_seq. reflexivity.
  - rewrite nth_error_map, nth_error_seq.
    destruct (Nat.ltb_spec i (length data)); [|lia].
    cbn [option_map Nat.add].
    destruct (Nat.ltb_spec (S i) timeperiod); [auto|].
    unfold NaN. intros Heq. discriminate Heq.
  - intros Hshort. rewrite nth_error_map, nth_error_seq.
    destruct (Nat.ltb_spec i (length data)); [|lia].
    cbn [option_map Nat.add].
    destruct (Nat.ltb_spec (S i) timeperiod); [reflexivity | lia].
  - apply Forall_forall. intros c Hc. apply in_map_iff in Hc.
    destruct Hc as (i & <- & Hi). apply in_seq in Hi.
    destruct (Nat.ltb_spec (S i) timeperiod); [discriminate|].
    pose (win := firstn timeperiod (skipn (S i - timeperiod) data)).
    assert (Hlen : length win = timeperiod)
      by (apply window_length; lia).
    assert (Hwin : Forall (fun x => lo <= x <= hi) win).
    { apply Forall_forall. intros x Hx.
      rewrite Forall_forall in Hdata. apply Hdata.
      apply (window_row_in timeperiod (S i - timeperiod)). exact Hx. }
    assert (Hmean : lo <= sum win / inject_Z (Z.of_nat timeperiod) <= hi).
    { assert (Hpos : (0 < length win)%nat) by lia.
      pose proof (mean_range lo hi win Hpos Hwin) as Hm.
      rewrite Hlen in Hm. exact Hm. }
    intros v Hv. injection Hv as <-. exact Hmean.
Qed.

Lemma SMA_is_a_mean_of_the_prices_witness :
  Forall (fun c => forall v, c = Some v -> 99 <= v <= 102)
         (Talib.SMA [100; 101; 102; 99; 100] 3).
Proof.
  apply (SMA_is_a_mean_of_the_prices [100; 101; 102; 99; 100] 3 99 102).
  - apply le_n_S, le_0_n.
  - repeat constructor; vm_compute; discriminate.
Defined.

Lemma ewm_from_range (alpha lo hi prev : Q) (xs : list Q) :
  0 <= alpha <= 1 -> lo <= prev <= hi ->
  Forall (fun x => lo <= x <= hi) xs ->
  Forall (fun x => lo <= x <= hi) (ewm_from alpha prev xs).
Proof.
  intros Ha Hprev Hxs. revert prev Hprev.
  induction Hxs as [|x xs Hx _ IH]; intros prev Hprev; [constructor|].
  cbn [ewm_from].
  assert (Hy : lo <= (1 - alpha) * prev + alpha * x <= hi) by nra.
  constructor; [exact Hy | apply IH, Hy].
Qed.

Lemma ewm_from_length (alpha prev : Q) (xs : list Q) :
  length (ewm_from alpha prev xs) = length xs.
Proof.
  revert prev. induction xs as [|x xs IH]; intros prev; [reflexivity|].
  cbn [ewm_from length]. f_equal. apply IH.
Qed.

Lemma span_alpha (span : nat) :
  (1 <= span)%nat -> 0 <= 2 / (inject_Z (Z.of_nat span) + 1) <= 1.
Proof.
  intros Hspan.
  assert (Hn : 1 <= inject_Z (Z.of_nat span)).
  { change 1 with (inject_Z 1). rewrite <- Zle_Qle. lia. }
  split.
  - apply Qle_shift_div_l; lra.
  - apply Qle_shift_div_r; lra.
Qed.

Lemma ewm_mean_some (span : nat) (xs : list Q) :
  (1 <= span)%nat ->
  exists ys, ewm_mean span xs = Some ys /\ length ys = length xs
             /\ hd_error ys = hd_error xs
             /\ forall lo hi, Forall (fun x => lo <= x <= hi) xs ->
                              Forall (fun x => lo <= x <= hi) ys.
Proof.
  intros Hspan. unfold ewm_mean.
  destruct (Nat.ltb_spec span 1); [lia|].
  eexists. split; [reflexivity|].
  destruct xs as [|x xs]; [repeat split; auto|].
  cbn [length hd_error]. rewrite ewm_from_length. repeat split.
  intros lo hi Hxs. inversion Hxs; subst.
  constructor; [assumption|].
  apply ewm_from_range; [apply span_alpha, Hspan | assumption..].
Qed.

(** X24.  The polyfill exponential average fails exactly on a period of 0;
    for any other period it has a value in every row (no missing head),
    starts at the first price, and stays within any bounds that hold for
    all the prices. *)
Theorem EMA_is_total_and_bounded (data : list Q) (timeperiod : nat) :
  (Talib.EMA data timeperiod = None <-> timeperiod = 0%nat)
  /\ (forall ema, Talib.EMA data timeperiod = Some ema ->
        length ema = length data
        /\ hd_error ema = hd_error data
        /\ forall lo hi, Forall (fun x => lo <= x <= hi) data ->
                         Forall (fun x => lo <= x <= hi) ema).
Proof.
  unfold Talib.EMA. destruct timeperiod as [|n].
  - split; [split; reflexivity | discriminate].
  - destruct (ewm_mean_some (S n) data) as (ys & Hys & Hrest); [lia|].
    rewrite Hys. split.
    + split; [discriminate | intros H; discriminate H].
    + intros ema [= <-]. exact Hrest.
Qed.

Lemma EMA_is_total_and_bounded_witness :
  exists ema, Talib.EMA [100; 101; 102; 99; 100] 8 = Some ema
              /\ Forall (fun x => 99 <= x <= 102) ema.
Proof.
  destruct (EMA_is_total_and_bounded [100; 101; 102; 99; 100] 8)
    as [_ Hsome].
  eexists. split; [reflexivity|].
  destruct (Hsome _ eq_refl) as (_ & _ & Hrange).
  apply Hrange. repeat constructor; vm_compute; discriminate.
Defined.

Lemma pinned_iff (c : Q) (xs : list Q) :
  Forall (fun x => x == c) xs <-> Forall (fun x => c <= x <= c) xs.
Proof.
  split; intros H; (eapply Forall_impl; [|exact H]); cbv beta; intros x Hx.
  - rewrite Hx. lra.
  - apply Qle_antisym; lra.
Qed.

Lemma ewm_mean_none (span : nat) (xs : list Q) :
  ewm_mean span xs = None <-> span = 0%nat.
Proof.
  unfold ewm_mean. destruct (Nat.ltb_spec span 1).
  - split; [lia | reflexivity].
  - split; [discriminate | lia].
Qed.

Lemma ewm_mean_pinned (span : nat) (c : Q) (xs ys : list Q) :
  ewm_mean span xs = Some ys ->
  length ys = length xs
  /\ (Forall (fun x => x == c) xs -> Forall (fun y => y == c) ys).
Proof.
  intros Hys.
  assert (Hspan : (1 <= span)%nat).
  { destruct span; [|lia].
    assert (H0 : ewm_mean 0 xs = None) by (apply ewm_mean_none; reflexivity).
    rewrite H0 in Hys. discriminate Hys. }
  destruct (ewm_mean_some span xs Hspan) as (ys' & Hys' & Hlen & _ & Hrange).
  rewrite Hys in Hys'. injection Hys' as <-. split; [exact Hlen|].
  intros Hxs. apply pinned_iff, Hrange, pinned_iff, Hxs.
Qed.

Lemma minus_pinned (c : Q) (a b : list Q) :
  Forall (fun x => x == c) a -> Forall (fun x => x == c) b ->
  Forall (fun x => x == 0) (Talib.minus a b).
Proof.
  intros Ha Hb. unfold Talib.minus. apply Forall_forall.
  intros x Hx. apply in_map_iff in Hx. destruct Hx as ([u v] & <- & Hin).
  rewrite Forall_forall in Ha, Hb. cbn [fst snd].
  pose proof (Ha u (in_combine_l _ _ _ _ Hin)) as Hu.
  pose proof (Hb v (in_combine_r _ _ _ _ Hin)) as Hv.
  cbv beta in Hu, Hv. lra.
Qed.

Lemma minus_length (a b : list Q) :
  length a = length b -> length (Talib.minus a b) = length a.
Proof.
  intros Hlen. unfold Talib.minus.
  rewrite length_map, length_combine. lia.
Qed.

(** X25.  The polyfill MACD fails exactly when one of its three periods
    is 0; otherwise its three lines have one value for each price, and on
    flat prices the MACD line, the signal line and the histogram are zero
    in every row. *)
Theorem MACD_lines (data : list Q) (fastperiod slowperiod signalperiod : nat) :
  (Talib.MACD data fastperiod slowperiod signalperiod = None <->
     fastperiod = 0%nat \/ slowperiod = 0%nat \/ signalperiod = 0%nat)
  /\ (forall macd_line signal_line histogram,
        Talib.MACD data fastperiod slowperiod signalperiod
        = Some (macd_line, signal_line, histogram) ->
        length macd_line = length data
        /\ length signal_line = length data
        /\ length histogram = length data
        /\ (forall price, Forall (fun x => x == price) data ->
              Forall (fun x => x == 0) macd_line
              /\ Forall (fun x => x == 0) signal_line
              /\ Forall (fun x => x == 0) histogram)).
Proof.
  unfold Talib.MACD.
  destruct (ewm_mean fastperiod data) as [fast_ema|] eqn:Ef.
  2:{ apply ewm_mean_none in Ef. split; [|discriminate].
      split; [auto | reflexivity]. }
  destruct (ewm_mean slowperiod data) as [slow_ema|] eqn:Es.
  2:{ apply ewm_mean_none in Es. split; [|discriminate].
      split; [auto | reflexivity]. }
  destruct (ewm_mean signalperiod (Talib.minus fast_ema slow_ema))
    as [signal|] eqn:Eg.
  2:{ apply ewm_mean_none in Eg. split; [|discriminate].
      split; [auto | reflexivity]. }
  assert (Hf0 : fastperiod <> 0%nat).
  { intros ->. rewrite (proj2 (ewm_mean_none 0 data) eq_refl) in Ef.
    discriminate Ef. }
  assert (Hs0 : slowperiod <> 0%nat).
  { intros ->. rewrite (proj2 (ewm_mean_none 0 data) eq_refl) in Es.
    discriminate Es. }
  assert (Hg0 : signalperiod <> 0%nat).
  { intros ->. rewrite (proj2 (ewm_mean_none 0 _) eq_refl) in Eg.
    discriminate Eg. }
  split; [split; [discriminate | intros [H | [H | H]]; contradiction]|].
  intros macd_line signal_line histogram [= <- <- <-].
  destruct (ewm_mean_pinned fastperiod 0 data fast_ema Ef) as [Hlf _].
  destruct (ewm_mean_pinned slowperiod 0 data slow_ema Es) as [Hls _].
  destruct (ewm_mean_pinned signalperiod 0 _ signal Eg) as [Hlg Hzero].
  assert (Hlm : length (Talib.minus fast_ema slow_ema) = length data).
  { rewrite minus_length; congruence. }
  repeat split.
  - exact Hlm.
  - congruence.
  - rewrite minus_length; congruence.
  - destruct (ewm_mean_pinned fastperiod price data fast_ema Ef) as [_ Hpf].
    destruct (ewm_mean_pinned slowperiod price data slow_ema Es) as [_ Hps].
    apply (minus_pinned price); auto.
  - destruct (ewm_mean_pinned fastperiod price data fast_ema Ef) as [_ Hpf].
    destruct (ewm_mean_pinned slowperiod price data slow_ema Es) as [_ Hps].
    apply Hzero. apply (minus_pinned price); auto.
  - destruct (ewm_mean_pinned fastperiod price data fast_ema Ef) as [_ Hpf].
    destruct (ewm_mean_pinned slowperiod price data slow_ema Es) as [_ Hps].
    apply (minus_pinned 0).
    + apply (minus_pinned price); auto.
    + apply Hzero. apply (minus_pinned price); auto.
Qed.

Lemma MACD_lines_witness :
  exists macd_line signal_line histogram,
    Talib.MACD (repeat 100 6) 8 18 5
    = Some (macd_line, signal_line, histogram)
    /\ Forall (fun x => x == 0) histogram.
Proof.
  destruct (MACD_lines (repeat 100 6) 8 18 5) as [_ Hsome].
  do 3 eexists. split; [reflexivity|].
  destruct (Hsome _ _ _ eq_refl) as (_ & _ & _ & Hflat).
  apply (Hflat 100). repeat constructor.
Defined.

Lemma diff_length (xs : list Q) : length (diff xs) = length xs.
Proof.
  destruct xs as [|x xs]; [reflexivity|].
  cbn [diff length]. rewrite length_map, length_combine. cbn [length]. lia.
Qed.

Lemma rolling_mean_na_length (w : nat) (col : list fnum) :
  length (rolling_mean_na w col) = length col.
Proof.
  unfold rolling_mean_na. rewrite length_map, length_seq. reflexivity.
Qed.

Lemma cells_in (window : list fnum) (vals : list Q) :
  cells window = Some vals ->
  forall v, In v vals -> In (Some v) window.
Proof.
  revert vals. induction window as [|c window IH]; intros vals Hc v Hv.
  - injection Hc as <-. destruct Hv.
  - cbn [cells] in Hc. destruct c as [x|]; [|discriminate].
    destruct (cells window) as [vals'|]; [|discriminate].
    injection Hc as <-. destruct Hv as [<- | Hv].
    + left. reflexivity.
    + right. apply (IH vals'); [reflexivity | exact Hv].
Qed.

Lemma sum_nonneg (vals : list Q) :
  Forall (fun x => 0 <= x) vals -> 0 <= sum vals.
Proof.
  induction 1 as [|x vals Hx _ IH]; cbn [sum]; lra.
Qed.

Lemma rolling_mean_na_nonneg (w : nat) (col : list fnum) :
  (0 < w)%nat ->
  Forall (fun c => forall v, c = Some v -> 0 <= v) col ->
  Forall (fun c => forall v, c = Some v -> 0 <= v) (rolling_mean_na w col).
Proof.
  intros Hw Hcol. rewrite rolling_mean_na_window by lia.
  apply Forall_forall.
  intros c Hc. apply in_map_iff in Hc. destruct Hc as (i & <- & _).
  destruct (Nat.ltb (S i) w); [discriminate|].
  destruct (cells (firstn w (skipn (S i - w) col))) as [vals|] eqn:Ecells;
    [|discriminate].
  intros v [= <-].
  assert (Hn : 0 < inject_Z (Z.of_nat w)).
  { change 0 with (inject_Z 0). rewrite <- Zlt_Qlt. lia. }
  apply Qle_shift_div_l; [exact Hn|].
  assert (Hsum : 0 <= sum vals); [|lra].
  apply sum_nonneg. apply Forall_forall. intros x Hx.
  rewrite Forall_forall in Hcol.
  apply (Hcol (Some x)); [|reflexivity].
  apply (window_row_in w (S i - w)).
  apply (cells_in _ vals Ecells). exact Hx.
Qed.

Lemma rolling_mean_na_head (w i : nat) (rest : list fnum) :
  (i < w)%nat -> (i < S (length rest))%nat ->
  nth_error (rolling_mean_na w (NaN :: rest)) i = Some NaN.
Proof.
  intros Hi Hlen. rewrite rolling_mean_na_window by lia.
  rewrite nth_error_map, nth_error_seq. cbn [length].
  destruct (Nat.ltb_spec i (S (length rest))); [|lia].
  cbn [option_map Nat.add]. f_equal.
  destruct (Nat.ltb_spec (S i) w); [reflexivity|].
  replace (S i - w)%nat with 0%nat by lia.
  destruct w as [|w']; [lia|]. reflexivity.
Qed.

Lemma gains_and_losses (data : list Q) :
  let delta := diff data in
  Forall (fun c => forall v, c = Some v -> 0 <= v) (clip_lower 0 delta)
  /\ Forall (fun c => forall v, c = Some v -> 0 <= v)
            (neg (clip_upper 0 delta)).
Proof.
  cbv zeta. unfold clip_lower, clip_upper, neg. split.
  - apply Forall_forall. intros c Hc. apply in_map_iff in Hc.
    destruct Hc as ([x|] & <- & _); [|discriminate].
    intros v [= <-]. destruct (Qltb x 0) eqn:E; to_Q; lra.
  - rewrite map_map. apply Forall_forall. intros c Hc.
    apply in_map_iff in Hc.
    destruct Hc as ([x|] & <- & _); [|discriminate].
    intros v [= <-]. destruct (Qltb 0 x) eqn:E; to_Q; lra.
Qed.

Lemma rsi_cell_range (up down : fnum) :
  (forall v, up = Some v -> 0 <= v) ->
  (forall v, down = Some v -> 0 <= v) ->
  let c := Talib.rsi_of (div_cell up down) in
  c = Undefined \/ exists v, c = Finite v /\ 0 <= v <= 100.
Proof.
  intros Hup Hdown. cbv zeta. unfold div_cell.
  destruct up as [u|]; [|left; reflexivity].
  destruct down as [d|]; [|left; reflexivity].
  specialize (Hup u eq_refl). specialize (Hdown d eq_refl).
  destruct (Qeq_bool d 0) eqn:Ed.
  - destruct (Qeq_bool u 0); [left; reflexivity|].
    right. exists 100. split; [reflexivity | lra].
  - apply Qeq_bool_neq in Ed.
    assert (Hd : 0 < d).
    { destruct (Qlt_le_dec 0 d) as [H | H]; [exact H|].
      exfalso. apply Ed. apply Qle_antisym; assumption. }
    assert (Hrs : 0 <= u / d) by (apply Qle_shift_div_l; lra).
    cbn [Talib.rsi_of].
    destruct (Qeq_bool (1 + u / d) 0) eqn:E1.
    + apply Qeq_bool_iff in E1. lra.
    + right. eexists. split; [reflexivity|].
      assert (H0 : 0 <= 100 / (1 + u / d))
        by (apply Qle_shift_div_l; lra).
      assert (H1 : 100 / (1 + u / d) <= 100)
        by (apply Qle_shift_div_r; lra).
      lra.
Qed.

Lemma nth_error_combine {A B : Type} (a : list A) (b : list B) (i : nat)
    (x : A) :
  length a = length b -> nth_error a i = Some x ->
  exists y, nth_error (combine a b) i = Some (x, y).
Proof.
  revert b i. induction a as [|x0 a IH]; intros b i Hlen Hx.
  - destruct i; discriminate Hx.
  - destruct b as [|y0 b]; [discriminate Hlen|].
    destruct i as [|i].
    + injection Hx as ->. exists y0. reflexivity.
    + cbn [combine nth_error] in *. apply IH; [|exact Hx].
      cbn [length] in Hlen. lia.
Qed.

(** X26.  The polyfill oscillator has one row for each price.  Its first
    [timeperiod] rows are undefined, one more than for the moving
    average, since the first price has no change.  Every other row is
    either undefined (no gain and no loss in its window) or a finite
    value between 0 and 100; it is never infinite. *)
Theorem RSI_range (data : list Q) (timeperiod : nat) :
  (0 < timeperiod)%nat ->
  length (Talib.RSI data timeperiod) = length data
  /\ (forall i, (i < length data)%nat -> (i < timeperiod)%nat ->
        nth_error (Talib.RSI data timeperiod) i = Some Undefined)
  /\ Forall (fun c => c = Undefined
                      \/ exists v, c = Finite v /\ 0 <= v <= 100)
            (Talib.RSI data timeperiod).
Proof.
  intros Hw. unfold Talib.RSI.
  set (delta := diff data).
  set (up := clip_lower 0 delta).
  set (down := neg (clip_upper 0 delta)).
  assert (Hlu : length (rolling_mean_na timeperiod up) = length data).
  { rewrite rolling_mean_na_length. unfold up, clip_lower.
    rewrite length_map. apply diff_length. }
  assert (Hld : length (rolling_mean_na timeperiod down) = length data).
  { rewrite rolling_mean_na_length. unfold down, neg, clip_upper.
    rewrite !length_map. apply diff_length. }
  repeat split.
  - rewrite length_map, length_combine. lia.
  - intros i Hi Hhead.
    assert (Hup : nth_error (rolling_mean_na timeperiod up) i = Some NaN).
    { unfold up, delta. destruct data as [|x data']; [cbn in Hi; lia|].
      cbn [diff clip_lower map]. fold (clip_lower 0).
      apply rolling_mean_na_head; [exact Hhead|].
      unfold clip_lower. rewrite !length_map, length_combine.
      cbn [length] in *. lia. }
    destruct (nth_error_combine _ (rolling_mean_na timeperiod down) i NaN
                (eq_trans Hlu (eq_sym Hld)) Hup) as (y & Hy).
    rewrite nth_error_map, Hy. reflexivity.
  - destruct (gains_and_losses data) as [Hgain Hloss].
    cbv zeta in Hgain, Hloss. fold delta in Hgain, Hloss.
    fold up in Hgain. fold down in Hloss.
    pose proof (rolling_mean_na_nonneg timeperiod up Hw Hgain) as Hmu.
    pose proof (rolling_mean_na_nonneg timeperiod down Hw Hloss) as Hmd.
    rewrite Forall_forall in Hmu, Hmd.
    apply Forall_forall. intros c Hc. apply in_map_iff in Hc.
    destruct Hc as ([u d] & <- & Hin). cbn [fst snd].
    apply rsi_cell_range.
    + apply Hmu. apply (in_combine_l _ _ _ _ Hin).
    + apply Hmd. apply (in_combine_r _ _ _ _ Hin).
Qed.

Lemma RSI_range_witness :
  Forall (fun c => c = Undefined
                   \/ exists v, c = Finite v /\ 0 <= v <= 100)
         (Talib.RSI [100; 101; 102; 99; 100; 104] 3).
Proof.
  apply (RSI_range [100; 101; 102; 99; 100; 104] 3).
  apply le_n_S, le_0_n.
Defined.

End Polyfill.

(** ** What the fills keep *)

Section FillsKeep.

Import Pandas.

Lemma ffill_from_keeps (prev : fnum) (col : list fnum) (i : nat) (v : Q) :
  nth_error col i = Some (Some v) ->
  nth_error (ffill_from prev col) i = Some (Some v).
Proof.
  revert prev i. induction col as [|x col IH]; intros prev i Hi.
  - destruct i; discriminate Hi.
  - destruct i as [|i]; cbn [ffill_from nth_error] in *.
    + injection Hi as ->. reflexivity.
    + apply IH, Hi.
Qed.

Lemma bfill_keeps (col : list fnum) (i : nat) (v : Q) :
  nth_error col i = Some (Some v) ->
  nth_error (bfill col) i = Some (Some v).
Proof.
  revert i. induction col as [|x col IH]; intros i Hi.
  - destruct i; discriminate Hi.
  - cbn [bfill]. destruct i as [|i]; cbn [nth_error] in Hi.
    + injection Hi as ->. reflexivity.
    + destruct x; cbn [nth_error]; apply IH, Hi.
Qed.

Lemma bfill_length (col : list fnum) : length (bfill col) = length col.
Proof.
  induction col as [|x col IH]; [reflexivity|].
  cbn [bfill]. destruct x; cbn [length]; rewrite IH; reflexivity.
Qed.

Lemma ffill_from_length (prev : fnum) (col : list fnum) :
  length (ffill_from prev col) = length col.
Proof.
  revert prev. induction col as [|x col IH]; intros prev; [reflexivity|].
  cbn [ffill_from length]. rewrite IH. reflexivity.
Qed.

(** X27.  The fills of [populate_indicators] only write into missing
    cells: a computed cell keeps its value through the forward fill, the
    back fill and both in a row, and no fill changes the number of
    rows. *)
Theorem fills_keep_computed_cells (col : list fnum) (i : nat) (v : Q) :
  nth_error col i = Some (Some v) ->
  nth_error (ffill col) i = Some (Some v)
  /\ nth_error (bfill col) i = Some (Some v)
  /\ nth_error (bfill (ffill col)) i = Some (Some v)
  /\ length (ffill col) = length col
  /\ length (bfill col) = length col.
Proof.
  intros Hi. unfold ffill. repeat split.
  - apply ffill_from_keeps, Hi.
  - apply bfill_keeps, Hi.
  - apply bfill_keeps, ffill_from_keeps, Hi.
  - apply ffill_from_length.
  - apply bfill_length.
Qed.

Lemma fills_keep_computed_cells_witness :
  let col := [NaN; Some 100; NaN; Some 102; NaN] in
  nth_error (bfill (ffill col)) 3 = Some (Some 102).
Proof.
  destruct (fills_keep_computed_cells [NaN; Some 100; NaN; Some 102; NaN]
              3 102) as (_ & _ & Hboth & _).
  - reflexivity.
  - exact Hboth.
Defined.

Lemma column_shape (col : list fnum) :
  col = repeat NaN (length col)
  \/ exists n v rest, col = repeat NaN n ++ Some v :: rest.
Proof.
  induction col as [|x col IH].
  - left. reflexivity.
  - destruct x as [v|].
    + right. exists 0%nat, v, col. reflexivity.
    + destruct IH as [Hall | (n & v & rest & Hsome)].
      * left. cbn [length repeat]. rewrite <- Hall. reflexivity.
      * right. exists (S n), v, rest. rewrite Hsome. reflexivity.
Qed.

Lemma ffill_from_defined_id (prev : fnum) (col : list fnum) :
  Forall is_defined col -> ffill_from prev col = col.
Proof.
  intros Hcol. revert prev.
  induction Hcol as [|x col [v ->] _ IH]; intros prev; [reflexivity|].
  cbn [ffill_from]. rewrite IH. reflexivity.
Qed.

Lemma bfill_twice (col : list fnum) : bfill (bfill col) = bfill col.
Proof.
  destruct (column_shape col) as [Hall | (n & v & rest & ->)].
  - rewrite Hall. rewrite !(proj1 (fill_missing _)). reflexivity.
  - rewrite bfill_leading.
    change (repeat (Some v) n ++ Some v :: bfill rest)
      with (repeat (Some v) n ++ [Some v] ++ bfill rest).
    induction n as [|n IHn].
    + cbn [repeat app bfill]. f_equal.
      clear. induction rest as [|x rest IH]; [reflexivity|].
      cbn [bfill]. destruct x as [w|].
      * cbn [bfill]. rewrite IH. reflexivity.
      * destruct (bfill rest) as [|h r'] eqn:E; cbn [hd].
        -- reflexivity.
        -- cbn [bfill]. cbn [bfill] in IH. destruct h as [w|].
           ++ rewrite IH. reflexivity.
           ++ rewrite IH. reflexivity.
    + cbn [repeat app bfill]. cbn [app] in IHn. rewrite IHn. reflexivity.
Qed.

Lemma fill_twice (col : list fnum) :
  bfill (ffill (bfill (ffill col))) = bfill (ffill col).
Proof.
  destruct (column_shape col) as [Hall | (n & v & rest & ->)].
  - rewrite Hall.
    rewrite (proj2 (fill_missing _)), (proj1 (fill_missing _)).
    rewrite (proj2 (fill_missing _)), (proj1 (fill_missing _)).
    reflexivity.
  - assert (Hdef : Forall is_defined
                     (repeat (Some v) n
                      ++ Some v :: ffill_from (Some v) rest)).
    { apply Forall_app. split.
      - apply Forall_forall. intros c Hc. apply repeat_spec in Hc.
        exists v. exact Hc.
      - constructor; [exists v; reflexivity | apply ffill_from_defined]. }
    assert (Hfilled : bfill (ffill (repeat NaN n ++ Some v :: rest))
                      = repeat (Some v) n
                        ++ Some v :: ffill_from (Some v) rest).
    { unfold ffill. rewrite ffill_from_missing, bfill_leading.
      rewrite (bfill_defined _ (ffill_from_defined v rest)). reflexivity. }
    rewrite Hfilled. unfold ffill.
    rewrite (ffill_from_defined_id _ _ Hdef).
    apply bfill_defined, Hdef.
Qed.

(** X28.  Running the fills of [populate_indicators] on columns that were
    already filled changes nothing. *)
Theorem fill_columns_idempotent (raw : MicroStrategy.columns) :
  MicroStrategy.fill_columns (MicroStrategy.fill_columns raw)
  = MicroStrategy.fill_columns raw.
Proof.
  unfold MicroStrategy.fill_columns.
  cbn [MicroStrategy.c_fastMA MicroStrategy.c_slowMA MicroStrategy.c_RSI
       MicroStrategy.c_MACD MicroStrategy.c_MACD_signal
       MicroStrategy.c_upper_band MicroStrategy.c_middle_band
       MicroStrategy.c_lower_band MicroStrategy.c_stoch_k
       MicroStrategy.c_stoch_d].
  rewrite bfill_twice, !fill_twice. reflexivity.
Qed.

End FillsKeep.

(** ** The game loop *)

Section GameLoop.

Import TradingGame.

(** The profit a tick returns is the profit of the state it leaves, at
    the price of the tick. *)
Lemma execute_game_logic_profit (btc_price : Q)
    (window : list MicroStrategy.row) (latest : MicroStrategy.row)
    (g g' : t) (log : list MicroStrategy.event) (pct : Q) :
  execute_game_logic btc_price window latest g = Some (g', log, pct) ->
  starting_balance g' = starting_balance g
  /\ Qeq_bool (starting_balance g') 0 = false
  /\ pct = ((fake_money g' + btc_holdings g' * btc_price)
            / starting_balance g' - 1) * 100.
Proof.
  unfold execute_game_logic.
  destruct (recovery_or_normal _ _ _ _) as [st l].
  destruct (Qeq_bool (starting_balance g) 0) eqn:E; [discriminate|].
  intros [= <- <- <-]. cbn. auto.
Qed.

Lemma game_loop_timed_out (win : Q) (ticks : list tick) (g g' : t)
    (price price' : Q) :
  ticks <> [] ->
  game_loop win ticks g price = Some (g', price', None) ->
  Qeq_bool (starting_balance g') 0 = false
  /\ ((fake_money g' + btc_holdings g' * price') / starting_balance g' - 1)
     * 100 < win.
Proof.
  revert g price. induction ticks as [|k ticks IH]; intros g price Hne Hrun;
    [contradiction|].
  cbn [game_loop] in Hrun.
  destruct (execute_game_logic (tick_price k) (tick_window k)
              (tick_latest k) g) as [[[g1 log] pct]|] eqn:Etick;
    [|discriminate].
  destruct (Qle_bool win pct) eqn:Ewin; [discriminate|].
  destruct ticks as [|k' ticks'].
  - cbn [game_loop] in Hrun. injection Hrun as <- <-.
    destruct (execute_game_logic_profit _ _ _ _ _ _ _ Etick)
      as (_ & Hstart & Hpct).
    split; [exact Hstart|]. rewrite <- Hpct. apply Qle_bool_gt, Ewin.
  - apply (IH g1 (tick_price k)); [discriminate | exact Hrun].
Qed.

Lemma game_loop_left_by_break (win : Q) (ticks : list tick) (g g' : t)
    (price price' pct : Q) :
  game_loop win ticks g price = Some (g', price', Some pct) ->
  exists before k after g1 p1 log,
    ticks = before ++ k :: after
    /\ game_loop win before g price = Some (g1, p1, None)
    /\ execute_game_logic (tick_price k) (tick_window k) (tick_latest k) g1
       = Some (g', log, pct)
    /\ win <= pct.
Proof.
  revert g price. induction ticks as [|k ticks IH]; intros g price Hrun;
    [discriminate|].
  cbn [game_loop] in Hrun.
  destruct (execute_game_logic (tick_price k) (tick_window k)
              (tick_latest k) g) as [[[g1 log] pct1]|] eqn:Etick;
    [|discriminate].
  destruct (Qle_bool win pct1) eqn:Ewin.
  - injection Hrun as <- <- <-.
    exists [], k, ticks, g, price, log. repeat split; auto.
    apply Qle_bool_iff, Ewin.
  - destruct (IH g1 (tick_price k) Hrun)
      as (before & k' & after & g2 & p2 & log' & -> & Hbefore & Hk & Hwin).
    exists (k :: before), k', after, g2, p2, log'. repeat split; auto.
    cbn [game_loop]. rewrite Etick, Ewin. exact Hbefore.
Qed.

Lemma game_loop_app (win : Q) (before rest : list tick) (g g1 : t)
    (price p1 : Q) :
  game_loop win before g price = Some (g1, p1, None) ->
  game_loop win (before ++ rest) g price = game_loop win rest g1 p1.
Proof.
  revert g price. induction before as [|k before IH]; intros g price Hrun.
  - injection Hrun as <- <-. reflexivity.
  - cbn [app game_loop] in *.
    destruct (execute_game_logic (tick_price k) (tick_window k)
                (tick_latest k) g) as [[[g2 log] pct]|]; [|discriminate].
    destruct (Qle_bool win pct); [discriminate|].
    apply IH, Hrun.
Qed.

(** X29.  A game in which at least one tick ran is won exactly when the
    report was written and some tick returned a profit at or above the
    target while every tick before it stayed below: the loop stops on
    that tick and runs none of the ticks after it.  A game whose time
    runs out without such a tick is lost. *)
Theorem run_game_wins_on_first_target_tick (win initial_price : Q)
    (ticks : list tick) (report_written : bool) (g : t) :
  ticks <> [] ->
  (run_game win initial_price ticks report_written g = true <->
     report_written = true
     /\ exists before k after g1 p1 g2 log pct,
          ticks = before ++ k :: after
          /\ game_loop win before g initial_price = Some (g1, p1, None)
          /\ execute_game_logic (tick_price k) (tick_window k)
               (tick_latest k) g1 = Some (g2, log, pct)
          /\ win <= pct
          /\ game_loop win ticks g initial_price
             = Some (g2, tick_price k, Some pct)).
Proof.
  intros Hne. unfold run_game. split.
  - destruct (game_loop win ticks g initial_price)
      as [[[g' price] [pct|]]|] eqn:Erun; [| |discriminate].
    + destruct report_written; [|discriminate]. intros _.
      split; [reflexivity|].
      destruct (game_loop_left_by_break _ _ _ _ _ _ _ Erun)
        as (before & k & after & g1 & p1 & log & Hsplit & Hbefore & Hk
            & Hwin).
      exists before, k, after, g1, p1, g', log, pct.
      split; [exact Hsplit|]. split; [exact Hbefore|].
      split; [exact Hk|]. split; [exact Hwin|].
      subst ticks.
      rewrite (game_loop_app _ _ _ _ _ _ _ Hbefore) in Erun.
      cbn [game_loop] in Erun. rewrite Hk in Erun.
      apply Qle_bool_iff in Hwin. rewrite Hwin in Erun.
      injection Erun as <-. reflexivity.
    + destruct (game_loop_timed_out _ _ _ _ _ _ Hne Erun) as [Hstart Hlow].
      rewrite Hstart. apply Qle_bool_gt in Hlow. rewrite Hlow.
      destruct report_written; discriminate.
  - intros (-> & before & k & after & g1 & p1 & g2 & log & pct & _ & _ & _
            & Hwin & ->).
    apply Qle_bool_iff, Hwin.
Qed.

Lemma run_game_wins_on_first_target_tick_witness :
  let window := repeat (Scenario.entry_row 100) 100 in
  let ticks := [mkTick 100 window (Scenario.entry_row 100);
                mkTick 90 window (Scenario.entry_row 90);
                mkTick 90 window (Scenario.entry_row 90)] in
  run_game 2 100 ticks true Scenario.trading_game_100 = true <->
  exists before k after g1 p1 g2 log pct,
    ticks = before ++ k :: after
    /\ game_loop 2 before Scenario.trading_game_100 100 = Some (g1, p1, None)
    /\ execute_game_logic (tick_price k) (tick_window k) (tick_latest k) g1
       = Some (g2, log, pct)
    /\ 2 <= pct
    /\ game_loop 2 ticks Scenario.trading_game_100 100
       = Some (g2, tick_price k, Some pct).
Proof.
  cbv zeta.
  destruct (run_game_wins_on_first_target_tick 2 100
              [mkTick 100 (repeat (Scenario.entry_row 100) 100)
                 (Scenario.entry_row 100);
               mkTick 90 (repeat (Scenario.entry_row 100) 100)
                 (Scenario.entry_row 90);
               mkTick 90 (repeat (Scenario.entry_row 100) 100)
                 (Scenario.entry_row 90)] true Scenario.trading_game_100)
    as [Hto Hfrom]; [discriminate|].
  split.
  - intros Hwon. apply Hto in Hwon. destruct Hwon as [_ Hwon]. exact Hwon.
  - intros Hex. apply Hfrom. split; [reflexivity | exact Hex].
Defined.

End GameLoop.

(** ** Cleaning old results *)

Section CleanupFacts.

Import Cleanup.

Lemma add_file_in (ts : Z) (f : file) (sessions : list session)
    (key : Z) (files : list file) :
  In (key, files) (add_file ts f sessions) ->
  (In (key, files) sessions
   \/ (key = ts /\ exists files0, In (key, files0) sessions
                                  /\ files = files0 ++ [f])
   \/ (key = ts /\ files = [f] /\ ~ In ts (map fst sessions))).
Proof.
  induction sessions as [|[k fs] rest IH]; cbn [add_file].
  - intros [[= <- <-] | []]. right. right. auto.
  - destruct (Z.eqb_spec k ts) as [-> | Hne].
    + intros [[= <- <-] | Hin].
      * right. left. split; [reflexivity|]. exists fs. split; [left|]; auto.
      * left. right. exact Hin.
    + intros [[= <- <-] | Hin]; [left; left; reflexivity|].
      destruct (IH Hin) as [H | [(-> & files0 & H & ->) | (-> & -> & H)]].
      * left. right. exact H.
      * right. left. split; [reflexivity|]. exists files0. split; auto.
        right. exact H.
      * right. right. repeat split; auto. cbn [map fst].
        intros [Hk | Hk]; [contradiction | apply H, Hk].
Qed.

Lemma add_file_keys (ts : Z) (f : file) (sessions : list session) :
  forall key, In key (map fst (add_file ts f sessions)) <->
              key = ts \/ In key (map fst sessions).
Proof.
  induction sessions as [|[k fs] rest IH]; intros key; cbn [add_file].
  - cbn. intuition.
  - destruct (Z.eqb_spec k ts) as [-> | Hne]; cbn [map fst In].
    + intuition.
    + rewrite IH. intuition.
Qed.

Lemma add_file_nodup (ts : Z) (f : file) (sessions : list session) :
  NoDup (map fst sessions) -> NoDup (map fst (add_file ts f sessions)).
Proof.
  induction sessions as [|[k fs] rest IH]; cbn [add_file]; intros Hnd.
  - cbn. constructor; [intros [] | constructor].
  - destruct (Z.eqb_spec k ts) as [-> | Hne]; cbn [map fst] in *;
      [exact Hnd|].
    inversion Hnd; subst. constructor; [|apply IH; assumption].
    rewrite add_file_keys. intros [Hk | Hk]; [congruence | contradiction].
Qed.

Lemma add_file_keeps (ts : Z) (f : file) (sessions : list session)
    (key : Z) (files0 : list file) :
  In (key, files0) sessions ->
  exists files, In (key, files) (add_file ts f sessions)
                /\ forall g, In g files0 -> In g files.
Proof.
  induction sessions as [|[k fs] rest IH]; [intros []|].
  cbn [add_file]. intros [[= -> ->] | Hin].
  - destruct (Z.eqb_spec key ts) as [-> | Hne].
    + exists (files0 ++ [f]). split; [left; reflexivity|].
      intros g Hg. apply in_or_app. left. exact Hg.
    + exists files0. split; [left; reflexivity | auto].
  - destruct (Z.eqb_spec k ts) as [-> | Hne].
    + exists files0. split; [right; exact Hin | auto].
    + destruct (IH Hin) as (files & Hfiles & Hsub).
      exists files. split; [right; exact Hfiles | exact Hsub].
Qed.

Lemma add_file_has (ts : Z) (f : file) (sessions : list session) :
  exists files, In (ts, files) (add_file ts f sessions) /\ In f files.
Proof.
  induction sessions as [|[k fs] rest IH]; cbn [add_file].
  - exists [f]. split; left; reflexivity.
  - destruct (Z.eqb_spec k ts) as [-> | Hne].
    + exists (fs ++ [f]). split; [left; reflexivity|].
      apply in_or_app. right. left. reflexivity.
    + destruct IH as (files & Hfiles & Hf).
      exists files. split; [right; exact Hfiles | exact Hf].
Qed.

Lemma grouped_step (seen : list file) (sessions : list session) (f : file) :
  Spec.grouped seen sessions ->
  Spec.grouped (seen ++ [f])
    (match stamp f with
     | Some ts => add_file ts f sessions
     | None => sessions
     end).
Proof.
  intros (Hnd & Hsound & Hcomplete).
  destruct (stamp f) as [ts|] eqn:Estamp.
  - repeat split.
    + apply add_file_nodup, Hnd.
    + destruct (add_file_in _ _ _ _ _ H)
        as [Hold | [(-> & files0 & Hold & ->) | (-> & -> & _)]].
      * apply (Hsound key files f0 Hold H0).
      * apply in_app_or in H0. destruct H0 as [H0 | [<- | []]];
          [apply (Hsound ts files0 f0 Hold H0) | exact Estamp].
      * destruct H0 as [<- | []]. exact Estamp.
    + destruct (add_file_in _ _ _ _ _ H)
        as [Hold | [(-> & files0 & Hold & ->) | (-> & -> & _)]].
      * apply in_or_app. left. apply (Hsound key files f0 Hold H0).
      * apply in_app_or in H0. apply in_or_app.
        destruct H0 as [H0 | [<- | []]];
          [left; apply (Hsound ts files0 f0 Hold H0) | right; left; auto].
      * destruct H0 as [<- | []]. apply in_or_app. right. left. auto.
    + intros g tg Hg Htg. apply in_app_or in Hg.
      destruct Hg as [Hg | [<- | []]].
      * destruct (Hcomplete g tg Hg Htg) as (files0 & Hin & Hgin).
        destruct (add_file_keeps ts f sessions tg files0 Hin)
          as (files & Hfiles & Hsub).
        exists files. split; [exact Hfiles | apply Hsub, Hgin].
      * assert (tg = ts) by congruence. subst tg. apply add_file_has.
  - repeat split.
    + exact Hnd.
    + apply (Hsound key files f0 H H0).
    + apply in_or_app. left. apply (Hsound key files f0 H H0).
    + intros g tg Hg Htg. apply in_app_or in Hg.
      destruct Hg as [Hg | [<- | []]]; [|congruence].
      apply (Hcomplete g tg Hg Htg).
Qed.

Lemma group_grouped (all_files : list file) :
  Spec.grouped all_files (group all_files).
Proof.
  unfold group.
  assert (Hgen : forall files seen sessions,
             Spec.grouped seen sessions ->
             Spec.grouped (seen ++ files)
               (fold_left (fun sessions f =>
                             match stamp f with
                             | Some ts => add_file ts f sessions
                             | None => sessions
                             end) files sessions)).
  { induction files as [|f files IH]; intros seen sessions Hg.
    - rewrite app_nil_r. exact Hg.
    - cbn [fold_left].
      replace (seen ++ f :: files) with ((seen ++ [f]) ++ files)
        by (rewrite <- app_assoc; reflexivity).
      apply IH, grouped_step, Hg. }
  apply (Hgen all_files [] []).
  split; [cbn; constructor|]. split.
  - intros key files f [].
  - intros f ts [].
Qed.

Lemma insert_newest_first_in (s x : session) (sorted : list session) :
  In x (insert_newest_first s sorted) <-> x = s \/ In x sorted.
Proof.
  induction sorted as [|h rest IH]; cbn [insert_newest_first].
  - cbn. intuition.
  - destruct (Z.ltb (fst h) (fst s)); cbn [In]; [intuition|].
    rewrite IH. intuition.
Qed.

Lemma sorted_sessions_in (x : session) (sessions : list session) :
  In x (sorted_sessions sessions) <-> In x sessions.
Proof.
  unfold sorted_sessions.
  induction sessions as [|s rest IH]; cbn [fold_right]; [reflexivity|].
  rewrite insert_newest_first_in, IH. cbn [In]. intuition.
Qed.

Lemma insert_newest_first_sorted (s : session) (sorted : list session) :
  StronglySorted Spec.newer sorted ->
  ~ In (fst s) (map fst sorted) ->
  StronglySorted Spec.newer (insert_newest_first s sorted).
Proof.
  induction 1 as [|h rest Hrest IH Hh]; intros Hnew;
    cbn [insert_newest_first].
  - constructor; constructor.
  - destruct (Z.ltb_spec (fst h) (fst s)) as [Hlt | Hge].
    + constructor; [constructor; assumption|].
      constructor; [exact Hlt|].
      eapply Forall_impl; [|exact Hh]. unfold Spec.newer. intros y Hy. lia.
    + assert (Hne : fst s <> fst h).
      { intros Heq. apply Hnew. left. symmetry. exact Heq. }
      constructor.
      * apply IH. intros Hin. apply Hnew. right. exact Hin.
      * apply Forall_forall. intros y Hy.
        apply insert_newest_first_in in Hy. destruct Hy as [-> | Hy].
        -- unfold Spec.newer. lia.
        -- rewrite Forall_forall in Hh. apply Hh, Hy.
Qed.

Lemma sorted_sessions_sorted (sessions : list session) :
  NoDup (map fst sessions) ->
  StronglySorted Spec.newer (sorted_sessions sessions).
Proof.
  unfold sorted_sessions.
  induction sessions as [|s rest IH]; cbn [fold_right map]; intros Hnd.
  - constructor.
  - inversion Hnd; subst. apply insert_newest_first_sorted; [apply IH; auto|].
    intros Hin. apply in_map_iff in Hin. destruct Hin as (x & Hx & Hin).
    apply (proj1 (sorted_sessions_in x rest)) in Hin. apply H1.
    rewrite <- Hx. apply in_map, Hin.
Qed.

Lemma sorted_split (a b : list session) (x y : session) :
  StronglySorted Spec.newer (a ++ b) -> In x a -> In y b -> Spec.newer x y.
Proof.
  induction a as [|h a IH]; intros Hs Hx Hy; [destruct Hx|].
  cbn [app] in Hs. inversion Hs; subst. destruct Hx as [-> | Hx].
  - rewrite Forall_forall in H2. apply H2. apply in_or_app. right. exact Hy.
  - apply IH; assumption.
Qed.

(** X30.  [cleanup_game_results] asks to remove nothing when the
    directory is missing or on a dry run.  Otherwise it removes only
    files that were found and carry a session time, and every file it
    removes is strictly older than every file with a session time that
    it leaves: what stays are the newest sessions. *)
Theorem cleanup_removes_only_older_sessions (all_files : list file)
    (keep_last : Z) :
  let removed := cleanup_game_results true all_files keep_last false in
  (forall is_dir dry_run,
      is_dir = false \/ dry_run = true ->
      cleanup_game_results is_dir all_files keep_last dry_run = [])
  /\ (forall f, In f removed ->
                In f all_files /\ exists ts, stamp f = Some ts)
  /\ (forall f g tf tg,
        In f removed -> In g all_files -> ~ In g removed ->
        stamp f = Some tf -> stamp g = Some tg -> (tf < tg)%Z).
Proof.
  cbv zeta. split; [|].
  - intros is_dir dry_run [-> | ->]; unfold cleanup_game_results;
      [reflexivity|].
    destruct is_dir; [|reflexivity]. cbn [negb].
    destruct (_ <=? _)%Z; reflexivity.
  - unfold cleanup_game_results. cbn [negb].
    destruct (group_grouped all_files) as (Hnd & Hsound & Hcomplete).
    pose proof (sorted_sessions_sorted (group all_files) Hnd) as Hsorted.
    set (sorted := sorted_sessions (group all_files)) in *.
    destruct (_ <=? _)%Z; [split; [intros f [] | intros f g tf tg []]|].
    set (k := Z.to_nat keep_last).
    assert (Hremoved : forall f, In f (flat_map snd (skipn k sorted)) ->
               exists key files, In (key, files) (skipn k sorted)
                                 /\ In f files
                                 /\ In (key, files) (group all_files)).
    { intros f Hf. apply in_flat_map in Hf.
      destruct Hf as ([key files] & Hin & Hf).
      exists key, files. repeat split; auto.
      apply (proj1 (sorted_sessions_in _ _)).
      change (In (key, files) sorted).
      rewrite <- (firstn_skipn k sorted).
      apply in_or_app. right. exact Hin. }
    split.
    + intros f Hf. destruct (Hremoved f Hf) as (key & files & _ & Hin & Hg).
      destruct (Hsound key files f Hg Hin) as [Hstamp Hseen].
      split; [exact Hseen | exists key; exact Hstamp].
    + intros f g tf tg Hf Hg Hkept Hsf Hsg.
      destruct (Hremoved f Hf) as (key & files & Hskip & Hin & Hgr).
      destruct (Hsound key files f Hgr Hin) as [Hstamp _].
      assert (key = tf) by congruence. subst key.
      destruct (Hcomplete g tg Hg Hsg) as (files_g & Hgg & Hgin).
      apply (proj2 (sorted_sessions_in _ _)) in Hgg.
      change (In (tg, files_g) sorted) in Hgg.
      rewrite <- (firstn_skipn k sorted) in Hgg, Hsorted.
      apply in_app_or in Hgg. destruct Hgg as [Hfirst | Hlast].
      * apply (sorted_split _ _ (tg, files_g) (tf, files) Hsorted Hfirst
                 Hskip).
      * exfalso. apply Hkept. apply in_flat_map.
        exists (tg, files_g). split; [exact Hlast | exact Hgin].
Qed.

Lemma cleanup_removes_only_older_sessions_witness :
  cleanup_game_results true Scenario.game_results 2 true = []
  /\ Forall (fun f => exists ts, stamp f = Some ts)
            (cleanup_game_results true Scenario.game_results 2 false)
  /\ (20240101120000 < 20240102120000)%Z.
Proof.
  destruct (cleanup_removes_only_older_sessions Scenario.game_results 2)
    as (Hnone & Honly & Holder).
  split; [|split].
  - apply Hnone. right. reflexivity.
  - apply Forall_forall. intros f Hf. apply (Honly f Hf).
  - apply (Holder (mkFile 1 (Some 20240101120000%Z))
                  (mkFile 4 (Some 20240102120000%Z))).
    + vm_compute. left. reflexivity.
    + vm_compute. right. right. right. left. reflexivity.
    + vm_compute. intros [H | [H | []]]; discriminate H.
    + reflexivity.
    + reflexivity.
Defined.

End CleanupFacts.
